(* ===== verification/_CoqProject ===== *)
-Q . S2P
Prelude.v
Msgs.v
Controller.v
FloatModel.v
ControllerProps.v
RealModel.v
RampDown.v
Race.v
Lifecycle.v
Refinement.v
CommandSink.v
Tearing.v
Binary64.v
