(* ===== verification/Prelude.v ===== *)
(** * Verification of franka_ros_controllers' CartesianVelocityController

    The program is one ros_control controller plugin,
    [src/franka_ros_controllers/src/cartesian_velocity_controller.cpp].
    Its parts and how they interact:
    - [init] (lines 18-64) binds the hardware interfaces for the arm named
      by the parameter [arm_id], zeroes the smoothed velocity, clears the
      contact memory, stamps the (default zero) target and subscribes
      [target_velocity_callback] to the target-velocity topic;
    - [target_velocity_callback] (lines 66-81), the target command buffer,
      runs in the ROS spinner thread: it stores the message into
      [target_velocity], exits the process if a component is NaN, else
      stamps [time_since_last_target_velocity];
    - [starting] (lines 83-93) zeroes the smoothed velocity;
    - [update] (lines 96-173), the velocity shaping core, runs once per
      control tick in the real-time thread: staleness check (which
      overwrites the stored target), contact detection, latch, contact
      clamp, exponential smoothing, de-rate by [cos(pi/4)], collision
      override, command to the actuator handle and status publication;
    - [stopping] (lines 176-202) applies one decay step of the filter and
      commands the decayed velocity without de-rate.
    The callback and [update] share [target_velocity] and its stamp
    without synchronisation; everything else belongs to [update].

    Files, in dependency order (_CoqProject):
    - [Prelude] (this file): the number interface [Scalar], a type class
      with the [double] operations the code uses; its notations in
      [scalar_scope]; the hint databases [ctl] (bounds) and [ctl_rw]
      (rewriting the model's arithmetic); boolean lemmas; the executable
      check [all_iter_ok] of a property along an iteration and the
      fixed-point lemma [iter_after_fixed].
    - [Msgs]: geometry_msgs::Vector3 and Twist, std::array<double,6>, the
      default Twist and the NaN test [x != x] of the callback.
    - [Controller]: the controller object as the record [Controller], the
      robot state snapshot [RobotState], the hardware [RobotHW]; one
      definition per method, [init], [target_velocity_callback] (result
      [CbStored] or [CbExit]), [starting], [update] (result [UpdOk] with
      the command and the status, or [UpdThrow] for [getHandle]'s
      exception) and [stopping]; [update] is the composition of its steps
      ([effective_target], [latch_update], [clamp_target], [smooth],
      [command_velocity], [command_of], [status_msg]) in source order.
      Written once, in a Section over any [Scalar].
    - [FloatModel]: [Scalar] at Rocq's primitive binary64 floats, so the
      definitions evaluate by [vm_compute] exactly as the C++ code, and
      the concrete inputs the witnesses use.
    - [ControllerProps]: theorems for every number type (C3-C5, C7, C10,
      C13-C19): collision override and its independence from the filter
      state, staleness, fresh targets, the latch over a run of ticks
      ([run_updates] models the host calling [update]), the NaN exit,
      [init]'s checks and its missing handle check, [starting]'s kept
      contact memory, the command and status layout.
    - [RealModel]: [Scalar] at the reals (exact arithmetic) and the
      filter's quantitative theorems (C2, C6, C12): the bound
      invariant [ctl_inv] kept by one tick, the per-tick bound of the state and of the
      command, the clamp by sign, and the counterexample to the spec's
      per-tick bound.
    - [RampDown]: decay under [stopping] and under a zero target (C8,
      C9, C11, C20): closed forms [alpha^n * v], limits, the command
      jump at the switch to [stopping], and the binary64 floor at the
      least subnormal.
    - [Race]: the callback thread against [update] (C21-C23).  The
      shared fields ([Shared]) and each thread's position ([CbPc], [UpPc])
      form a small-step system; [cb_step] and [up_step] execute one
      statement that reads or writes a shared field (lines 67, 69-77, 80
      and 112, 113, 116), and a schedule is the list of threads that step.
      Interleaved schedules lose a valid message to the staleness reset
      (C21), let [update] copy a NaN before [exit] (C22), or hide a NaN
      from the test (C23).
    - [Lifecycle]: controller_manager's calling protocol (spec section
      5; the host is outside this repository): [lstep] over [World]
      (phase, the state handle names bound by [init], the object), whose
      steps call [init], [starting], [update], [stopping] and the callback,
      with [exit(-1)] and [update]'s exception ending the process; the
      executable [lstep_fn] runs lists of events and is sound and
      complete for [lstep] ([lstep_fn_sound], [lstep_fn_complete]).  By
      rule induction
      over [reachable]: with a configured state interface and NaN-free
      messages the process never ends (C24), and at the reals every
      reachable state satisfies the bound invariant [ctl_inv] (C1).
    - [Refinement]: the specification of spec sections 4.1-4.2 as a
      non-mutating mailbox ([Mailbox], [mb_read], [mb_submit], "never" as
      [None]) and a core state ([Core], [core_tick]); the relation
      [simulates] (same filter state; the stored target is the mailbox's
      message or a zero already stale at the last tick) is kept by every
      callback and tick, so under a monotone clock the code sends the
      specification's commands (C25); when the clock steps back they
      differ (C26).
    - [CommandSink]: the command sink adapter and the status publisher.
      [setCommand] and [publish] (lines 163, 172, 195, 201) are the
      [Output]s of [update] and [stopping] ([event_outputs]), and a run of
      host events has an output trace ([run_outputs]).  Every command is
      followed by a status message that decodes back to it (C27, a round
      trip).  Messages within [M] and collision-free ticks keep
      consecutive commands within [cos(pi/4) * 2 * (1-alpha) * v_max/2 * M]
      (C28, the actuator contract of spec section 6).  A stop and restart
      breaks that bound (C29).  The StateSnapshot reader is [get_handle]
      on the state interface and the fields of [RobotState] that [update]
      reads.
    - [Tearing]: the Twist assignments of lines 67, 113 and 116 take six
      member moves each ([twist_set], [twist_get], [fcb_step],
      [fup_step]).  Interleaved, it lets [update] copy a Twist that mixes
      the new and the old target (C30).
      By induction over schedules of any length, every member [update]
      copies comes from the old target, the message or the reset (C33).
    - [Binary64]: the filter in the arithmetic of the C++ code.  The
      computed gain is [0.00037500000000000033].  The response to a unit
      target stays within [[0, v_max/2.0]] and is constant from tick 6286
      on (C31).  The ramp-down from there stalls after 147057 calls at
      [99 * 2^-1074] (C32).  The proofs check the first ticks by
      evaluation ([all_iter_ok]) and the rest by the fixed point
      ([iter_after_fixed]); the iteration counts are [N] literals
      evaluated in binary ([N2Nat.inj_iter]).

    Number model.  [double] is the interface [Scalar]: integer literals
    and conversions ([sc_of_Z]), [+ - * /], [>] and [==], and the constant
    [std::cos(M_PI / 4.0)].  A decimal literal such as [0.995] is
    [sc_dec 995 3], i.e. 995/1000; binary64 division is correctly rounded,
    so at floats this is the double nearest to 0.995, the value the C++
    literal denotes.  The R instance is exact real arithmetic and proves
    the filter's bounds without rounding; the float instance is binary64
    with round-to-nearest and shows what rounding changes (C20).
    ros::Time and ros::Duration are integers of nanoseconds, and
    [toSec() > 2] is [d > 2 * 10^9] ([is_stale]): in exact arithmetic
    [sec + 1e-9 * nsec > 2] is [d > 2 * 10^9]; in binary64,
    [2 + 1e-9 * nsec] exceeds 2 exactly when [nsec > 0], because [1e-9]
    is far above half an ulp of 2 (an argument, not a theorem of the
    development).  No definition needs fuel: every loop of the model is
    a run over a given list of ticks, events or schedule steps, or
    [Nat.iter] of [stopping].

    Not modelled: ROS parameter lookup, topic transport and logging (their
    outcome is an input of [init] or of the callback; the topic names are
    the constants of [CommandSink]), the franka driver behind
    [setCommand] and [getRobotState] (an output and an input of [update]),
    pluginlib registration.  The NaN test of lines 69-74 is one step in
    [Tearing], although it reads the six members one by one.

    Not yet covered:
    - several messages against several ticks in [Race] and [Tearing]
      (schedules of any length and what they can produce);
    - the binary64 bound invariant for targets other than the unit
      step (a rounding error bound for [smooth_axis]);
    - the output trace of [CommandSink] under collisions and contact:
      which consecutive pairs stay within the bound.  *)

From Stdlib Require Import ZArith Bool Lia.

(** ** The numeric interface *)

(** The operations on [double] that the controller uses.  [sc_of_Z] is
    the conversion of an integer literal or an [int] to [double]. *)
Class Scalar (F : Type) := {
  sc_of_Z : Z -> F;
  sc_add : F -> F -> F;
  sc_sub : F -> F -> F;
  sc_mul : F -> F -> F;
  sc_div : F -> F -> F;
  sc_gtb : F -> F -> bool;
  sc_eqb : F -> F -> bool;
  sc_cos_quarter_pi : F
}.

Declare Scope scalar_scope.
Delimit Scope scalar_scope with sc.
Infix "+" := sc_add : scalar_scope.
Infix "-" := sc_sub : scalar_scope.
Infix "*" := sc_mul : scalar_scope.
Infix "/" := sc_div : scalar_scope.
Infix ">?" := sc_gtb : scalar_scope.
Infix "=?" := sc_eqb : scalar_scope.

Section Literals.
Context {F : Type} `{Scalar F}.

(** [0], [0.0]: the literal zero. *)
Definition sc_zero : F := sc_of_Z 0.

(** The decimal literal [m * 10^-k]. *)
Definition sc_dec (m : Z) (k : nat) : F :=
  sc_div (sc_of_Z m) (sc_of_Z (10 ^ Z.of_nat k)).

(** [x != x]: true exactly on NaN for IEEE doubles. *)
Definition sc_is_nan (x : F) : bool := negb (sc_eqb x x).
End Literals.

(** ** Automation shared by the development *)

Create HintDb ctl.
Create Rewrite HintDb ctl_rw.

(** The three-way disjunctions of the contact and collision tests. *)
Lemma orb_false_iff3 (a b c : bool) :
  (a || b || c)%bool = false <-> a = false /\ b = false /\ c = false.
Proof. destruct a, b, c; simpl; intuition congruence. Qed.

(** ** Iteration *)

(** [p] holds on the [n + 1] first iterates of [f] from [s]: an
    executable check. *)
Fixpoint all_iter_ok {A} (p : A -> bool) (f : A -> A) (n : nat) (s : A) : bool :=
  p s && match n with O => true | S m => all_iter_ok p f m (f s) end.

Lemma all_iter_ok_sound {A} (p : A -> bool) (f : A -> A) n s :
  all_iter_ok p f n s = true -> forall k, (k <= n)%nat -> p (Nat.iter k f s) = true.
Proof.
  revert s; induction n as [|n IH]; intros s Hc k Hk; simpl in Hc;
    apply andb_true_iff in Hc as [Hs Hr].
  - replace k with 0%nat by lia. exact Hs.
  - destruct k as [|k]; [exact Hs|]. rewrite Nat.iter_succ_r. apply IH; [exact Hr | lia].
Qed.

(** Once the iteration reaches a fixed point it stays there. *)
Lemma iter_after_fixed {A} (f : A -> A) (s : A) n :
  f (Nat.iter n f s) = Nat.iter n f s -> forall k, (n <= k)%nat -> Nat.iter k f s = Nat.iter n f s.
Proof.
  intros Hf k Hk. replace k with (k - n + n)%nat by lia. rewrite Nat.iter_add.
  induction (k - n)%nat as [|m IH]; [reflexivity|]. simpl. rewrite IH. exact Hf.
Qed.
