(* ===== verification/Msgs.v ===== *)
(** * Message and array types of the controller

    geometry_msgs::Vector3 and geometry_msgs::Twist (the target velocity,
    the smoothed velocity and the published status), std::array<double,6>
    (the robot state's Cartesian vectors and the actuator command), the
    default-constructed Twist, and the NaN test of
    [target_velocity_callback] (cartesian_velocity_controller.cpp,
    lines 69-74).  All generic over the number interface [Scalar]. *)

From Stdlib Require Import ZArith Bool List.
Import ListNotations.
From S2P Require Import Prelude.

Section Msgs.
Context {F : Type} `{Scalar F}.

(** geometry_msgs::Vector3. *)
Record Vector3 := mkVector3 { x : F; y : F; z : F }.

(** geometry_msgs::Twist. *)
Record Twist := mkTwist { linear : Vector3; angular : Vector3 }.

(** std::array<double, 6>, one field per index. *)
Record array6 := mkArray6 { at0 : F; at1 : F; at2 : F; at3 : F; at4 : F; at5 : F }.

(** [a[i]] for the indices the controller reads. *)
Definition array6_get (a : array6) (i : nat) : F :=
  match i with
  | 0 => at0 a | 1 => at1 a | 2 => at2 a
  | 3 => at3 a | 4 => at4 a | _ => at5 a
  end.

(** A default-constructed Vector3 and Twist: every field [0.0]. *)
Definition vector3_zero : Vector3 := mkVector3 sc_zero sc_zero sc_zero.
Definition twist_zero : Twist := mkTwist vector3_zero vector3_zero.

(** The condition of the [if] at lines 69-74: some component [c]
    satisfies [c != c], tested in the order of the source. *)
Definition twist_has_nan (t : Twist) : bool :=
  sc_is_nan (x (linear t)) || sc_is_nan (y (linear t)) || sc_is_nan (z (linear t)) ||
  sc_is_nan (x (angular t)) || sc_is_nan (y (angular t)) || sc_is_nan (z (angular t)).

(** The six components of a Twist, linear first. *)
Definition twist_components (t : Twist) : list F :=
  [x (linear t); y (linear t); z (linear t); x (angular t); y (angular t); z (angular t)].
End Msgs.

Arguments Vector3 F : clear implicits.
Arguments Twist F : clear implicits.
Arguments array6 F : clear implicits.

(** The NaN test fails exactly when no component is NaN. *)
Lemma twist_has_nan_false_iff {F} `{Scalar F} (t : Twist F) :
  twist_has_nan t = false <-> forall c, List.In c (twist_components t) -> sc_is_nan c = false.
Proof.
  destruct t as [[lx ly lz] [ax ay az]]; unfold twist_has_nan; simpl.
  split.
  - intros Hn c Hc. repeat rewrite orb_false_iff in Hn.
    intuition (subst; assumption).
  - intros Hc. repeat rewrite orb_false_iff.
    repeat split; apply Hc; simpl; tauto.
Qed.
