(* ===== verification/Controller.v ===== *)
(** * The controller object and its methods

    [CartesianVelocityController] of cartesian_velocity_controller.cpp:
    its fields as the record [Controller], the robot state snapshot read
    in [update], and one definition per method ([init], [target_velocity_callback],
    [starting], [update], [stopping]).  [update] is written as the
    composition of its steps, each a definition named after the lines it
    translates.  Everything is generic over the number interface. *)

From Stdlib Require Import ZArith Bool List String.
From S2P Require Import Prelude Msgs.

(** ** Hardware and robot state *)

(** The hardware abstraction as [init] and [update] query it: each
    interface is absent ([nullptr]) or present with the names of the
    handles it holds; [getHandle] throws on a name it does not hold. *)
Record RobotHW := mkRobotHW {
  hw_velocity_cartesian_interface : option (list string);
  hw_state_interface : option (list string)
}.

(** [getHandle(name)] succeeds exactly on a registered name. *)
Definition get_handle (names : list string) (name : string) : bool :=
  existsb (String.eqb name) names.

(** The name [arm_id + "_robot"] of lines 35 and 103. *)
Definition robot_handle_name (arm : string) : string := String.append arm "_robot".

(** Why [init] returned false (lines 20-46). *)
Inductive init_error :=
  | NoArmIdParam
  | NoVelocityCartesianInterface
  | CartesianHandleException
  | NoStateInterface.

Section Controller.
Context {F : Type} `{Scalar F}.
Local Open Scope scalar_scope.

(** franka::RobotState, the fields the controller reads. *)
Record RobotState := mkRobotState {
  cartesian_contact : array6 F;
  cartesian_collision : array6 F;
  O_dP_EE_d : array6 F
}.

(** The fields of the controller object that the methods read or write.
    Times ([ros::Time], [ros::Duration]) are integers of nanoseconds. *)
Record Controller := mkController {
  arm_id : string;
  current_velocity : Twist F;
  target_velocity : Twist F;
  time_since_last_target_velocity : Z;
  was_in_contact : bool;
  ee_twist_cause_of_contact : array6 F;
  elapsed_time_ : Z
}.

(** ** Constants of [update] and [stopping] *)

(** [double v_max = 0.15;] (line 100). *)
Definition v_max : F := sc_dec 15 2.
(** [double alpha = 0.995;] (lines 136 and 184). *)
Definition alpha : F := sc_dec 995 3.
(** [std::cos(angle)] with [angle = M_PI / 4.0] (lines 101, 147-149). *)
Definition cos_angle : F := sc_cos_quarter_pi.
(** The staleness timeout [2] seconds of line 112, in nanoseconds. *)
Definition staleness_timeout : Z := 2000000000.

(** ** Steps of [update] *)

(** [cartesian_contact[i] > 0] (lines 105-107). *)
Definition contact_axis (rs : RobotState) (i : nat) : bool :=
  array6_get (cartesian_contact rs) i >? sc_zero.

(** [is_in_contact] (line 109). *)
Definition is_in_contact (rs : RobotState) : bool :=
  contact_axis rs 0 || contact_axis rs 1 || contact_axis rs 2.

(** [(now - time_since_last_target_velocity).toSec() > 2] (line 112). *)
Definition is_stale (now last : Z) : bool := (now - last >? staleness_timeout)%Z.

(** Lines 112-114: a stale target is overwritten by the zero Twist. *)
Definition effective_target (now : Z) (c : Controller) : Twist F :=
  if is_stale now (time_since_last_target_velocity c) then twist_zero
  else target_velocity c.

(** Lines 118-120: on a not-in-contact to in-contact transition the
    desired end-effector twist is latched. *)
Definition latch_update (was now_in : bool) (rs : RobotState) (latch : array6 F) : array6 F :=
  if negb was && now_in then O_dP_EE_d rs else latch.

(** Lines 122-132, one axis: the component is zeroed when the axis is in
    contact and it has the sign of the latched twist. *)
Definition clamp_axis (in_contact : bool) (t cause : F) : F :=
  if in_contact && (t * cause >? sc_zero) then sc_zero else t.

(** [new_target_velocity] after lines 116-132: linear part clamped,
    angular part copied. *)
Definition clamp_target (rs : RobotState) (latch : array6 F) (t : Twist F) : Twist F :=
  mkTwist
    (mkVector3 (clamp_axis (contact_axis rs 0) (x (linear t)) (at0 latch))
               (clamp_axis (contact_axis rs 1) (y (linear t)) (at1 latch))
               (clamp_axis (contact_axis rs 2) (z (linear t)) (at2 latch)))
    (angular t).

(** One axis of the filter, lines 138-145:
    [alpha*cur + (1-alpha) * v_max/2.0 * t], with C++'s left-to-right
    grouping [((1-alpha) * v_max) / 2.0) * t]. *)
Definition smooth_axis (cur t : F) : F :=
  alpha * cur + (sc_of_Z 1 - alpha) * v_max / sc_of_Z 2 * t.

(** [current_velocity] after lines 138-145: linear part filtered,
    angular part untouched. *)
Definition smooth (cur t : Twist F) : Twist F :=
  mkTwist
    (mkVector3 (smooth_axis (x (linear cur)) (x (linear t)))
               (smooth_axis (y (linear cur)) (y (linear t)))
               (smooth_axis (z (linear cur)) (z (linear t))))
    (angular cur).

(** Lines 147-149: [v = std::cos(angle) * current_velocity.linear]. *)
Definition derate (v : F) : F := cos_angle * v.

(** [is_in_collision] (lines 151-153). *)
Definition is_in_collision (rs : RobotState) : bool :=
  (at0 (cartesian_collision rs) >? sc_zero) ||
  (at1 (cartesian_collision rs) >? sc_zero) ||
  (at2 (cartesian_collision rs) >? sc_zero).

(** [(v_x, v_y, v_z)] after lines 147-159. *)
Definition command_velocity (rs : RobotState) (cur : Twist F) : F * F * F :=
  if is_in_collision rs then (sc_zero, sc_zero, sc_zero)
  else (derate (x (linear cur)), derate (y (linear cur)), derate (z (linear cur))).

(** [command] of lines 162 and 194. *)
Definition command_of (v : F * F * F) : array6 F :=
  let '(vx, vy, vz) := v in mkArray6 vx vy vz sc_zero sc_zero sc_zero.

(** [vel_msg] of lines 165-168 and 197-200: a default Twist with
    [linear.x = v_x], [angular.y = v_y], [angular.z = v_z]. *)
Definition status_msg (v : F * F * F) : Twist F :=
  let '(vx, vy, vz) := v in
  mkTwist (mkVector3 vx sc_zero sc_zero) (mkVector3 sc_zero vy vz).

(** ** The methods *)

(** [init] (lines 18-64), on the object [c] it is called on: the
    parameter lookup and interface queries are inputs. *)
Definition init (arm_param : option string) (hw : RobotHW) (now : Z) (c : Controller)
    : init_error + Controller :=
  match arm_param with
  | None => inl NoArmIdParam
  | Some arm =>
      match hw_velocity_cartesian_interface hw with
      | None => inl NoVelocityCartesianInterface
      | Some vnames =>
          if negb (get_handle vnames (robot_handle_name arm)) then inl CartesianHandleException
          else match hw_state_interface hw with
               | None => inl NoStateInterface
               | Some _ =>
                   inr {| arm_id := arm;
                          current_velocity := twist_zero;
                          target_velocity := target_velocity c;
                          time_since_last_target_velocity := now;
                          was_in_contact := false;
                          ee_twist_cause_of_contact := ee_twist_cause_of_contact c;
                          elapsed_time_ := elapsed_time_ c |}
               end
      end
  end.

(** What [target_velocity_callback] leaves: the stored message with a
    fresh stamp, or the process exiting ([exit(-1)], line 77) after the
    message has already been stored (line 67). *)
Inductive callback_result :=
  | CbStored (c : Controller)
  | CbExit (c : Controller).

(** [target_velocity_callback] (lines 66-81). *)
Definition target_velocity_callback (msg : Twist F) (now : Z) (c : Controller)
    : callback_result :=
  let c1 := {| arm_id := arm_id c;
               current_velocity := current_velocity c;
               target_velocity := msg;
               time_since_last_target_velocity := time_since_last_target_velocity c;
               was_in_contact := was_in_contact c;
               ee_twist_cause_of_contact := ee_twist_cause_of_contact c;
               elapsed_time_ := elapsed_time_ c |} in
  if twist_has_nan msg then CbExit c1
  else CbStored {| arm_id := arm_id c1;
                   current_velocity := current_velocity c1;
                   target_velocity := target_velocity c1;
                   time_since_last_target_velocity := now;
                   was_in_contact := was_in_contact c1;
                   ee_twist_cause_of_contact := ee_twist_cause_of_contact c1;
                   elapsed_time_ := elapsed_time_ c1 |}.

(** [starting] (lines 83-93). *)
Definition starting (c : Controller) : Controller :=
  {| arm_id := arm_id c;
     current_velocity := twist_zero;
     target_velocity := target_velocity c;
     time_since_last_target_velocity := time_since_last_target_velocity c;
     was_in_contact := was_in_contact c;
     ee_twist_cause_of_contact := ee_twist_cause_of_contact c;
     elapsed_time_ := 0%Z |}.

(** The outcome of one [update]: the new object with the command sent to
    the actuator and the published status, or the exception that
    [getHandle] throws at line 103 (after [elapsed_time_] was advanced). *)
Inductive update_result :=
  | UpdOk (c : Controller) (command : array6 F) (msg : Twist F)
  | UpdThrow (c : Controller).

(** [update] (lines 96-173).  [state_handles] are the handle names of
    the state interface bound by [init]; [rs] is the robot state the
    handle returns and [now] is [ros::Time::now()]. *)
Definition update (state_handles : list string) (rs : RobotState) (now period : Z)
    (c : Controller) : update_result :=
  let elapsed := (elapsed_time_ c + period)%Z in
  if negb (get_handle state_handles (robot_handle_name (arm_id c))) then
    UpdThrow {| arm_id := arm_id c;
                current_velocity := current_velocity c;
                target_velocity := target_velocity c;
                time_since_last_target_velocity := time_since_last_target_velocity c;
                was_in_contact := was_in_contact c;
                ee_twist_cause_of_contact := ee_twist_cause_of_contact c;
                elapsed_time_ := elapsed |}
  else
    let contact := is_in_contact rs in
    let target := effective_target now c in
    let latch := latch_update (was_in_contact c) contact rs (ee_twist_cause_of_contact c) in
    let new_target := clamp_target rs latch target in
    let cur := smooth (current_velocity c) new_target in
    let v := command_velocity rs cur in
    UpdOk {| arm_id := arm_id c;
             current_velocity := cur;
             target_velocity := target;
             time_since_last_target_velocity := time_since_last_target_velocity c;
             was_in_contact := contact;
             ee_twist_cause_of_contact := latch;
             elapsed_time_ := elapsed |}
          (command_of v) (status_msg v).

(** One axis of [stopping] (lines 186-188). *)
Definition decay_axis (v : F) : F := alpha * v.

(** [stopping] (lines 176-202): the new object, the command and the
    published status. *)
Definition stopping (c : Controller) : Controller * array6 F * Twist F :=
  let cur := current_velocity c in
  let cur' := mkTwist (mkVector3 (decay_axis (x (linear cur)))
                                 (decay_axis (y (linear cur)))
                                 (decay_axis (z (linear cur))))
                      (angular cur) in
  let v := (x (linear cur'), y (linear cur'), z (linear cur')) in
  ({| arm_id := arm_id c;
      current_velocity := cur';
      target_velocity := target_velocity c;
      time_since_last_target_velocity := time_since_last_target_velocity c;
      was_in_contact := was_in_contact c;
      ee_twist_cause_of_contact := ee_twist_cause_of_contact c;
      elapsed_time_ := elapsed_time_ c |}, command_of v, status_msg v).
End Controller.

Arguments RobotState F : clear implicits.
Arguments Controller F : clear implicits.
Arguments callback_result F : clear implicits.
Arguments update_result F : clear implicits.
