(* ===== verification/FloatModel.v ===== *)
(** * The controller at IEEE binary64

    The instance of [Scalar] at Rocq's primitive floats, which implement
    binary64 with round-to-nearest-even, the arithmetic of [double] on the
    targets the controller runs on.  With it every definition of
    [Controller] evaluates by [vm_compute] exactly as the C++ code
    computes, NaN and subnormals included.  The file also holds what is
    specific to doubles: the literals, the NaN test, and the floor the
    exponential filter reaches instead of zero. *)

From Stdlib Require Import ZArith Bool List String PrimFloat Uint63.
From S2P Require Import Prelude Msgs Controller.

(** Conversion of an integer literal to [double] (exact for the small
    literals of the code). *)
Definition float_of_Z (n : Z) : float :=
  if (n <? 0)%Z then PrimFloat.opp (PrimFloat.of_uint63 (Uint63.of_Z (- n)))
  else PrimFloat.of_uint63 (Uint63.of_Z n).

(** [std::cos(M_PI / 4.0)]: the double nearest to the cosine of the
    double [M_PI / 4.0] (a libm value, correctly rounded by glibc). *)
Definition float_cos_quarter_pi : float := 0x1.6a09e667f3bcdp-1%float.

(** The C++ operators on [double]; [a > b] is [b < a]. *)
#[export] Instance float_scalar : Scalar float := {|
  sc_of_Z := float_of_Z;
  sc_add := PrimFloat.add;
  sc_sub := PrimFloat.sub;
  sc_mul := PrimFloat.mul;
  sc_div := PrimFloat.div;
  sc_gtb := fun a b => PrimFloat.ltb b a;
  sc_eqb := PrimFloat.eqb;
  sc_cos_quarter_pi := float_cos_quarter_pi
|}.

(** ** Concrete inputs used by the witnesses of the development *)

Definition f0 : float := 0%float.
Definition arr6 (a b c d e f : float) : array6 float := mkArray6 a b c d e f.
Definition arr6_zero : array6 float := arr6 f0 f0 f0 f0 f0 f0.
Definition twist_lin (a b c : float) : Twist float :=
  mkTwist (mkVector3 a b c) (mkVector3 f0 f0 f0).

(** A robot state with the given contact and collision flags on x and
    the given desired twist. *)
Definition rs_of (contact_x collision_x : float) (dP : array6 float) : RobotState float :=
  mkRobotState (arr6 contact_x f0 f0 f0 f0 f0) (arr6 collision_x f0 f0 f0 f0 f0) dP.

Definition panda_handles : list string := cons "panda_robot"%string nil.

(** A started controller of arm "panda" whose stored target was stamped
    at time 0 and whose smoothed velocity is [cur]. *)
Definition ctl_of (cur target : Twist float) (was : bool) (latch : array6 float)
    : Controller float :=
  mkController "panda" cur target 0 was latch 0.

(** ** Properties specific to doubles *)

Definition float_denorm_min : float := 0x0.0000000000001p-1022%float.

(** One ramp-down step at the least positive double rounds back to it. *)
Lemma decay_axis_denorm_min : decay_axis float_denorm_min = float_denorm_min.
Proof. vm_compute. reflexivity. Qed.

(** One filter step at the least positive double with a zero target
    rounds back to it. *)
Lemma smooth_axis_denorm_min : smooth_axis float_denorm_min f0 = float_denorm_min.
Proof. vm_compute. reflexivity. Qed.
