(* ===== verification/ControllerProps.v ===== *)
(** * Properties of the controller for every number type

    Theorems about [Controller] that depend on no arithmetic law: they
    hold for the reals, for binary64 and for any other [Scalar].  They
    cover the collision override and its independence from the filter
    state, the staleness fallback, the contact latch as a state machine,
    the layout of the command and of the published status, the fatal NaN
    path of the callback, [init]'s checks and [starting].  [run_updates]
    is the host's loop of ticks.  Witnesses evaluate the theorems at
    binary64 ([FloatModel]). *)

From Stdlib Require Import ZArith Bool List String PrimFloat.
From S2P Require Import Prelude Msgs Controller FloatModel.

(** The controller object an [update] leaves, whether it returned or threw. *)
Definition result_controller {F} (r : update_result F) : Controller F :=
  match r with UpdOk c _ _ => c | UpdThrow c => c end.

(** The actuator command of an [update] that returned. *)
Definition result_command {F} (r : update_result F) : option (array6 F) :=
  match r with UpdOk _ cmd _ => Some cmd | UpdThrow _ => None end.

(** Unfold [update] on a controller whose state handle exists. *)
Ltac unfold_update Hh :=
  unfold update; rewrite Hh; simpl.

Section Generic.
Context {F : Type} `{Scalar F}.

(** Filter inputs made of zeros are not changed by the contact clamp. *)
Lemma clamp_axis_zero (b : bool) (l : F) : clamp_axis b sc_zero l = sc_zero.
Proof. unfold clamp_axis. destruct (b && _); reflexivity. Qed.

Lemma clamp_target_zero (rs : RobotState F) (l : array6 F) :
  clamp_target rs l twist_zero = twist_zero.
Proof. unfold clamp_target; simpl. rewrite !clamp_axis_zero. reflexivity. Qed.

(** The contact flags and the latch read only the contact array and the
    desired twist of the robot state. *)
Lemma is_in_contact_ext (rs rs' : RobotState F) :
  cartesian_contact rs = cartesian_contact rs' -> is_in_contact rs = is_in_contact rs'.
Proof. intros E. unfold is_in_contact, contact_axis. rewrite E. reflexivity. Qed.

Lemma clamp_target_ext (rs rs' : RobotState F) l t :
  cartesian_contact rs = cartesian_contact rs' -> clamp_target rs l t = clamp_target rs' l t.
Proof. intros E. unfold clamp_target, contact_axis. rewrite E. reflexivity. Qed.
End Generic.

#[export] Hint Rewrite @clamp_axis_zero @clamp_target_zero : ctl_rw.

(** The controller object a tick leaves when the state handle exists. *)
Lemma update_result_controller {F} `{Scalar F} hs rs now period (c : Controller F) :
  get_handle hs (robot_handle_name (arm_id c)) = true ->
  result_controller (update hs rs now period c) =
    let latch := latch_update (was_in_contact c) (is_in_contact rs) rs
                              (ee_twist_cause_of_contact c) in
    mkController (arm_id c)
      (smooth (current_velocity c) (clamp_target rs latch (effective_target now c)))
      (effective_target now c) (time_since_last_target_velocity c) (is_in_contact rs)
      latch (elapsed_time_ c + period).
Proof. intros Hh. unfold_update Hh. reflexivity. Qed.

(** The command a tick sends when the state handle exists. *)
Lemma update_result_command {F} `{Scalar F} hs rs now period (c : Controller F) :
  get_handle hs (robot_handle_name (arm_id c)) = true ->
  result_command (update hs rs now period c) =
    Some (command_of (command_velocity rs
            (current_velocity (result_controller (update hs rs now period c))))).
Proof. intros Hh. unfold_update Hh. reflexivity. Qed.

Section Collision.
Context {F : Type} `{Scalar F}.
Variables (hs : list string) (now period : Z) (c : Controller F).
Hypothesis Hhandle : get_handle hs (robot_handle_name (arm_id c)) = true.

(** C3. Collision override: when a collision flag of the linear axes
    is set, the tick commands exactly zero on all six components and
    publishes the zero Twist, whatever the smoothed velocity. *)
Theorem update_collision_zero_command (rs : RobotState F) :
  is_in_collision rs = true ->
  exists c', update hs rs now period c =
             UpdOk c' (mkArray6 sc_zero sc_zero sc_zero sc_zero sc_zero sc_zero) twist_zero.
Proof.
  intros Hc. unfold_update Hhandle. unfold command_velocity. rewrite Hc.
  eexists. reflexivity.
Qed.

(** C4. The override does not touch the filter state: two robot states
    with the same contact flags and desired twist lead to the same
    controller object after the tick, whatever their collision flags. *)
Theorem update_state_ignores_collision (rs rs' : RobotState F) :
  cartesian_contact rs = cartesian_contact rs' ->
  O_dP_EE_d rs = O_dP_EE_d rs' ->
  result_controller (update hs rs now period c) =
  result_controller (update hs rs' now period c).
Proof.
  intros Ec Ed. unfold_update Hhandle.
  rewrite (is_in_contact_ext rs rs' Ec).
  unfold latch_update. rewrite Ed.
  rewrite (clamp_target_ext rs rs' _ _ Ec). reflexivity.
Qed.
End Collision.

(** Witness of C3 at binary64: in collision with a nonzero velocity. *)
Lemma update_collision_zero_command_witness :
  exists c', update panda_handles (rs_of 0 1 arr6_zero) 0 1000000
               (ctl_of (twist_lin 0.0625 0 0) (twist_lin 1 0 0) false arr6_zero) =
             UpdOk c' (mkArray6 sc_zero sc_zero sc_zero sc_zero sc_zero sc_zero) twist_zero.
Proof.
  apply update_collision_zero_command; vm_compute; reflexivity.
Defined.

(** Witness of C4 at binary64: the same tick with and without collision. *)
Lemma update_state_ignores_collision_witness :
  result_controller (update panda_handles (rs_of 0 1 arr6_zero) 0 1000000
                       (ctl_of (twist_lin 0.0625 0 0) (twist_lin 1 0 0) false arr6_zero)) =
  result_controller (update panda_handles (rs_of 0 0 arr6_zero) 0 1000000
                       (ctl_of (twist_lin 0.0625 0 0) (twist_lin 1 0 0) false arr6_zero)).
Proof.
  apply update_state_ignores_collision; vm_compute; reflexivity.
Defined.

Section Staleness.
Context {F : Type} `{Scalar F}.
Variables (hs : list string) (now period : Z) (c : Controller F).
Hypothesis Hhandle : get_handle hs (robot_handle_name (arm_id c)) = true.

Lemma clamp_target_no_contact (rs : RobotState F) l t :
  is_in_contact rs = false -> clamp_target rs l t = t.
Proof.
  unfold is_in_contact. rewrite orb_false_iff3. intros (E0 & E1 & E2).
  destruct t as [[tx ty tz] ta]. unfold clamp_target. rewrite E0, E1, E2. reflexivity.
Qed.

(** C5. Staleness fallback: when the last target is older than two
    seconds, the tick filters towards the zero Twist, and the stored
    target itself is overwritten by the zero Twist. *)
Theorem update_stale_zero_target (rs : RobotState F) :
  is_stale now (time_since_last_target_velocity c) = true ->
  target_velocity (result_controller (update hs rs now period c)) = twist_zero /\
  current_velocity (result_controller (update hs rs now period c)) =
    smooth (current_velocity c) twist_zero.
Proof.
  intros Hs. unfold_update Hhandle. unfold effective_target. rewrite Hs.
  autorewrite with ctl_rw. split; reflexivity.
Qed.

(** C13. A fresh target away from contact is filtered unchanged and
    stays stored. *)
Theorem update_fresh_target (rs : RobotState F) :
  is_stale now (time_since_last_target_velocity c) = false ->
  is_in_contact rs = false ->
  target_velocity (result_controller (update hs rs now period c)) = target_velocity c /\
  current_velocity (result_controller (update hs rs now period c)) =
    smooth (current_velocity c) (target_velocity c).
Proof.
  intros Hs Hc. unfold_update Hhandle. unfold effective_target. rewrite Hs.
  rewrite clamp_target_no_contact by exact Hc. split; reflexivity.
Qed.
End Staleness.

(** Witness of C5: a target stamped at 0 read 3 s later. *)
Lemma update_stale_zero_target_witness :
  target_velocity (result_controller
    (update panda_handles (rs_of 0 0 arr6_zero) 3000000000 1000000
       (ctl_of (twist_lin 0.0625 0 0) (twist_lin 1 0 0) false arr6_zero))) = twist_zero /\
  current_velocity (result_controller
    (update panda_handles (rs_of 0 0 arr6_zero) 3000000000 1000000
       (ctl_of (twist_lin 0.0625 0 0) (twist_lin 1 0 0) false arr6_zero))) =
  smooth (twist_lin 0.0625 0 0) twist_zero.
Proof. apply update_stale_zero_target; vm_compute; reflexivity. Defined.

(** Witness of C13: the same target read after exactly 2 s is still fresh. *)
Lemma update_fresh_target_witness :
  target_velocity (result_controller
    (update panda_handles (rs_of 0 0 arr6_zero) 2000000000 1000000
       (ctl_of (twist_lin 0.0625 0 0) (twist_lin 1 0 0) false arr6_zero))) = twist_lin 1 0 0 /\
  current_velocity (result_controller
    (update panda_handles (rs_of 0 0 arr6_zero) 2000000000 1000000
       (ctl_of (twist_lin 0.0625 0 0) (twist_lin 1 0 0) false arr6_zero))) =
  smooth (twist_lin 0.0625 0 0) (twist_lin 1 0 0).
Proof. apply update_fresh_target; vm_compute; reflexivity. Defined.

Section Callback.
Context {F : Type} `{Scalar F}.

(** C10. Fatal NaN path: a message with a NaN component makes the
    callback exit the process, but only after the message has been
    written into the shared field [target_velocity]; the stamp keeps
    its old value. *)
Theorem callback_nan_exits (msg : Twist F) (now : Z) (c : Controller F) :
  twist_has_nan msg = true ->
  exists c', target_velocity_callback msg now c = CbExit c' /\
             target_velocity c' = msg /\
             time_since_last_target_velocity c' = time_since_last_target_velocity c /\
             current_velocity c' = current_velocity c.
Proof.
  intros Hn. unfold target_velocity_callback. rewrite Hn.
  eexists. repeat split.
Qed.

(** C15. A message without NaN replaces the stored target and stamps it
    with the current time, leaving the rest of the object alone. *)
Theorem callback_stores_valid (msg : Twist F) (now : Z) (c : Controller F) :
  twist_has_nan msg = false ->
  target_velocity_callback msg now c =
    CbStored (mkController (arm_id c) (current_velocity c) msg now (was_in_contact c)
                           (ee_twist_cause_of_contact c) (elapsed_time_ c)).
Proof. intros Hn. unfold target_velocity_callback. rewrite Hn. reflexivity. Qed.
End Callback.

Definition nan_twist : Twist float := twist_lin 1 nan 0.

(** Witness of C10: a message whose linear.y is NaN. *)
Lemma callback_nan_exits_witness :
  exists c', target_velocity_callback nan_twist 5 (ctl_of twist_zero twist_zero false arr6_zero)
               = CbExit c' /\
             target_velocity c' = nan_twist /\
             time_since_last_target_velocity c' = 0%Z /\
             current_velocity c' = twist_zero.
Proof. apply callback_nan_exits. vm_compute. reflexivity. Defined.

(** Witness of C15: a finite message. *)
Lemma callback_stores_valid_witness :
  target_velocity_callback (twist_lin 1 0 0) 5 (ctl_of twist_zero twist_zero false arr6_zero) =
    CbStored (mkController "panda" twist_zero (twist_lin 1 0 0) 5 false arr6_zero 0).
Proof. apply callback_stores_valid. vm_compute. reflexivity. Defined.

Section Init.
Context {F : Type} `{Scalar F}.

(** C16. [init] succeeds exactly when the [arm_id] parameter is set, the
    Cartesian velocity interface exists and holds the arm's handle, and
    the state interface exists; it then zeroes the smoothed velocity,
    clears the contact memory and stamps the stored target with the
    current time, keeping the other fields. *)
Theorem init_ok_iff (p : option string) (hw : RobotHW) (now : Z) (c c' : Controller F) :
  init p hw now c = inr c' <->
  exists arm vnames snames,
    p = Some arm /\
    hw_velocity_cartesian_interface hw = Some vnames /\
    get_handle vnames (robot_handle_name arm) = true /\
    hw_state_interface hw = Some snames /\
    c' = mkController arm twist_zero (target_velocity c) now false
                      (ee_twist_cause_of_contact c) (elapsed_time_ c).
Proof.
  unfold init. split.
  - destruct p as [arm|]; [|discriminate].
    destruct (hw_velocity_cartesian_interface hw) as [vn|]; [|discriminate].
    destruct (get_handle vn (robot_handle_name arm)) eqn:Eh; simpl; [|discriminate].
    destruct (hw_state_interface hw) as [sn|]; [|discriminate].
    intros E. injection E as <-. exists arm, vn, sn. repeat split; assumption.
  - intros (arm & vn & sn & -> & -> & Eh & -> & ->). rewrite Eh. reflexivity.
Qed.

End Init.

Definition hw_panda : RobotHW :=
  mkRobotHW (Some panda_handles) (Some (cons "fr3_robot"%string nil)).

(** Witness of C16: a complete hardware description. *)
Lemma init_ok_iff_witness :
  init (Some "panda"%string) (mkRobotHW (Some panda_handles) (Some panda_handles)) 7
       (ctl_of twist_zero twist_zero true arr6_zero) =
    inr (mkController "panda" twist_zero twist_zero 7 false arr6_zero 0).
Proof.
  apply (proj2 (init_ok_iff _ _ _ _ _)).
  exists "panda"%string, panda_handles, panda_handles. vm_compute. repeat split.
Defined.

(** C17. [init] checks that the state interface exists but not that it
    holds the arm's handle: [init] succeeds on hardware whose state
    interface holds another arm's handle, and then every [update] throws
    from [getHandle] (line 103) in the real-time loop. *)
Theorem init_ok_update_throws :
  exists c',
    init (Some "panda"%string) hw_panda 7 (ctl_of twist_zero twist_zero true arr6_zero) = inr c' /\
    hw_state_interface hw_panda = Some (cons "fr3_robot"%string nil) /\
    forall (rs : RobotState float) now period,
      exists c'', update (cons "fr3_robot"%string nil) rs now period c' = UpdThrow c''.
Proof.
  eexists. split; [vm_compute; reflexivity|]. split; [reflexivity|].
  intros rs now period. eexists. reflexivity.
Qed.

Section Layout.
Context {F : Type} `{Scalar F}.

(** C19. Command and status layout of a tick: the command's angular
    components are zero, and the published status carries [v_x] in
    [linear.x] but [v_y], [v_z] in [angular.y], [angular.z], with
    [linear.y = linear.z = angular.x = 0]. *)
Theorem update_status_layout (hs : list string) (rs : RobotState F) (now period : Z)
    (c : Controller F) :
  match update hs rs now period c with
  | UpdOk _ cmd msg =>
      at3 cmd = sc_zero /\ at4 cmd = sc_zero /\ at5 cmd = sc_zero /\
      x (linear msg) = at0 cmd /\ y (linear msg) = sc_zero /\ z (linear msg) = sc_zero /\
      x (angular msg) = sc_zero /\ y (angular msg) = at1 cmd /\ z (angular msg) = at2 cmd
  | UpdThrow _ => True
  end.
Proof.
  unfold update. destruct (negb _); [exact I|].
  destruct (command_velocity _ _) as [[vx vy] vz]. simpl. repeat split.
Qed.

(** C14. Without collision the tick commands the new smoothed velocity
    multiplied by the constant [std::cos(M_PI / 4.0)] on each linear axis,
    [cos(pi/4) * current_velocity.linear], with a zero angular part. *)
Theorem update_command_derated (hs : list string) (rs : RobotState F) (now period : Z)
    (c : Controller F) :
  get_handle hs (robot_handle_name (arm_id c)) = true ->
  is_in_collision rs = false ->
  let cur := current_velocity (result_controller (update hs rs now period c)) in
  result_command (update hs rs now period c) =
    Some (mkArray6 (sc_mul sc_cos_quarter_pi (x (linear cur)))
                   (sc_mul sc_cos_quarter_pi (y (linear cur)))
                   (sc_mul sc_cos_quarter_pi (z (linear cur))) sc_zero sc_zero sc_zero).
Proof.
  intros Hh Hc. unfold_update Hh. unfold command_velocity. rewrite Hc. reflexivity.
Qed.
End Layout.

(** Witness of C14. *)
Lemma update_command_derated_witness :
  let c := ctl_of (twist_lin 0.0625 0 0) (twist_lin 1 0 0) false arr6_zero in
  let cur := current_velocity (result_controller
               (update panda_handles (rs_of 0 0 arr6_zero) 0 1000000 c)) in
  result_command (update panda_handles (rs_of 0 0 arr6_zero) 0 1000000 c) =
    Some (mkArray6 (sc_mul sc_cos_quarter_pi (x (linear cur)))
                   (sc_mul sc_cos_quarter_pi (y (linear cur)))
                   (sc_mul sc_cos_quarter_pi (z (linear cur))) sc_zero sc_zero sc_zero).
Proof. apply update_command_derated; vm_compute; reflexivity. Defined.

(** ** The contact latch over a run of ticks *)

(** The host's control loop: [update] called on successive ticks, each
    with its robot state, time and period. *)
Fixpoint run_updates {F} `{Scalar F} (hs : list string)
    (ticks : list (RobotState F * Z * Z)) (c : Controller F) : Controller F :=
  match ticks with
  | nil => c
  | (rs, now, period) :: rest => run_updates hs rest (result_controller (update hs rs now period c))
  end.

Section Latch.
Context {F : Type} `{Scalar F}.
Variable hs : list string.

Definition tick_contact (t : RobotState F * Z * Z) : bool :=
  let '(rs, _, _) := t in is_in_contact rs.

Definition tick_desired (t : RobotState F * Z * Z) : array6 F :=
  let '(rs, _, _) := t in O_dP_EE_d rs.

(** No not-in-contact to in-contact transition along [ticks], starting
    from the contact state [b]. *)
Fixpoint no_rising_edge (b : bool) (ticks : list (RobotState F * Z * Z)) : bool :=
  match ticks with
  | nil => true
  | t :: rest => (b || negb (tick_contact t)) && no_rising_edge (tick_contact t) rest
  end.

(** The contact state after [ticks], starting from [b]. *)
Definition contact_after (b : bool) (ticks : list (RobotState F * Z * Z)) : bool :=
  List.fold_left (fun _ t => tick_contact t) ticks b.

Lemma update_arm_id rs now period (c : Controller F) :
  arm_id (result_controller (update hs rs now period c)) = arm_id c.
Proof. unfold update. destruct (negb _); reflexivity. Qed.

(** One tick's effect on the contact memory and the latch. *)
Lemma update_contact_memory rs now period (c : Controller F) :
  get_handle hs (robot_handle_name (arm_id c)) = true ->
  was_in_contact (result_controller (update hs rs now period c)) = is_in_contact rs /\
  ee_twist_cause_of_contact (result_controller (update hs rs now period c)) =
    latch_update (was_in_contact c) (is_in_contact rs) rs (ee_twist_cause_of_contact c).
Proof. intros Hh. unfold_update Hh. split; reflexivity. Qed.

Lemma run_updates_app t1 t2 (c : Controller F) :
  run_updates hs (t1 ++ t2) c = run_updates hs t2 (run_updates hs t1 c).
Proof.
  revert c; induction t1 as [|[[rs now] p] t1 IH]; intros c; simpl; auto.
Qed.

Lemma run_updates_arm_id ticks (c : Controller F) :
  arm_id (run_updates hs ticks c) = arm_id c.
Proof.
  revert c; induction ticks as [|[[rs now] p] t IH]; intros c; simpl; auto.
  rewrite IH. apply update_arm_id.
Qed.

Lemma run_updates_contact ticks (c : Controller F) :
  get_handle hs (robot_handle_name (arm_id c)) = true ->
  was_in_contact (run_updates hs ticks c) = contact_after (was_in_contact c) ticks.
Proof.
  revert c; induction ticks as [|[[rs now] p] t IH]; intros c Hh; simpl; auto.
  rewrite IH by (rewrite update_arm_id; exact Hh).
  unfold contact_after; simpl. f_equal. apply (update_contact_memory rs now p c Hh).
Qed.

(** Without a rising edge the latch keeps its value. *)
Lemma run_updates_latch_kept ticks (c : Controller F) :
  get_handle hs (robot_handle_name (arm_id c)) = true ->
  no_rising_edge (was_in_contact c) ticks = true ->
  ee_twist_cause_of_contact (run_updates hs ticks c) = ee_twist_cause_of_contact c.
Proof.
  revert c; induction ticks as [|[[rs now] p] t IH]; intros c Hh Hn; simpl in *; auto.
  apply andb_prop in Hn as [He Hn].
  destruct (update_contact_memory rs now p c Hh) as [Ew El].
  rewrite IH; [| rewrite update_arm_id; exact Hh | rewrite Ew; exact Hn].
  rewrite El. unfold latch_update.
  destruct (was_in_contact c), (is_in_contact rs); simpl in *; congruence.
Qed.

(** C7. The latch is the desired end-effector twist sampled at the last
    not-in-contact to in-contact transition: after ticks [pre], a tick
    [t] entering contact, and ticks [post] with no new transition, the
    latch holds [t]'s [O_dP_EE_d]. *)
Theorem run_updates_latch_last_edge pre t post (c : Controller F) :
  get_handle hs (robot_handle_name (arm_id c)) = true ->
  contact_after (was_in_contact c) pre = false ->
  tick_contact t = true ->
  no_rising_edge true post = true ->
  ee_twist_cause_of_contact (run_updates hs (pre ++ t :: post) c) = tick_desired t.
Proof.
  intros Hh Hpre Ht Hpost.
  rewrite run_updates_app. set (c1 := run_updates hs pre c).
  assert (Hh1 : get_handle hs (robot_handle_name (arm_id c1)) = true)
    by (unfold c1; rewrite run_updates_arm_id; exact Hh).
  assert (Hw1 : was_in_contact c1 = false)
    by (unfold c1; rewrite run_updates_contact by exact Hh; exact Hpre).
  destruct t as [[rs now] p]. simpl in Ht |- *.
  destruct (update_contact_memory rs now p c1 Hh1) as [Ew El].
  rewrite run_updates_latch_kept.
  - rewrite El, Hw1, Ht. reflexivity.
  - rewrite update_arm_id. exact Hh1.
  - rewrite Ew, Ht. exact Hpost.
Qed.
End Latch.

Definition dP_a : array6 float := arr6 0.25 0 0 0 0 0.
Definition dP_b : array6 float := arr6 (-0.5) 0 0 0 0 0.

(** Witness of C7: free, contact begins with [dP_a], contact persists
    with another desired twist, contact ends. *)
Lemma run_updates_latch_last_edge_witness :
  ee_twist_cause_of_contact
    (run_updates panda_handles
       ((rs_of 0 0 dP_b, 0%Z, 1%Z) :: (rs_of 1 0 dP_a, 1%Z, 1%Z) ::
        (rs_of 1 0 dP_b, 2%Z, 1%Z) :: (rs_of 0 0 dP_b, 3%Z, 1%Z) :: nil)
       (ctl_of twist_zero (twist_lin 1 0 0) false arr6_zero)) = dP_a.
Proof.
  apply (run_updates_latch_last_edge panda_handles ((rs_of 0 0 dP_b, 0%Z, 1%Z) :: nil)
           (rs_of 1 0 dP_a, 1%Z, 1%Z) ((rs_of 1 0 dP_b, 2%Z, 1%Z) :: (rs_of 0 0 dP_b, 3%Z, 1%Z) :: nil));
    vm_compute; reflexivity.
Defined.

Section Restart.
Context {F : Type} `{Scalar F}.

(** C18. [starting] zeroes the smoothed velocity and the elapsed time
    but keeps the contact memory: a controller stopped while in contact
    and started again in contact does not re-latch on its first tick,
    and clamps against the twist latched in the previous run. *)
Theorem starting_keeps_stale_latch (hs : list string) (rs : RobotState F) (now period : Z)
    (c : Controller F) :
  get_handle hs (robot_handle_name (arm_id c)) = true ->
  was_in_contact c = true ->
  is_in_contact rs = true ->
  current_velocity (starting c) = twist_zero /\
  ee_twist_cause_of_contact (result_controller (update hs rs now period (starting c))) =
    ee_twist_cause_of_contact c.
Proof.
  intros Hh Hw Hc. split; [reflexivity|].
  destruct (update_contact_memory hs rs now period (starting c) Hh) as [_ El].
  rewrite El. unfold latch_update. simpl. rewrite Hw. reflexivity.
Qed.
End Restart.

(** Witness of C18: the previous run latched [dP_b]; the new contact
    desires [dP_a]. *)
Lemma starting_keeps_stale_latch_witness :
  current_velocity (starting (ctl_of (twist_lin 0.0625 0 0) twist_zero true dP_b)) = twist_zero /\
  ee_twist_cause_of_contact (result_controller
    (update panda_handles (rs_of 1 0 dP_a) 0 1
       (starting (ctl_of (twist_lin 0.0625 0 0) twist_zero true dP_b)))) = dP_b.
Proof. apply starting_keeps_stale_latch; vm_compute; reflexivity. Defined.
