(* ===== verification/RealModel.v ===== *)
(** * The controller in exact real arithmetic

    The instance of [Scalar] at the reals: [double] operations read as
    the exact operations of R (rounding is not modelled here; see
    [FloatModel] for binary64), [std::cos(M_PI / 4.0)] as [cos (PI / 4)].
    On this model the file proves the quantitative behaviour of one tick:
    the bound invariant [ctl_inv] it keeps, how much it can change the
    smoothed velocity and the command, the meaning of the contact clamp
    in terms of signs, and the target reversal that exceeds the spec's
    per-tick bound.  The constants are computed here: [alpha = 995/1000],
    [v_max = 15/100], the gain [(1 - alpha) * v_max / 2 = 3/8000] and
    [0.66 < cos(pi/4) < 0.72]. *)

From Stdlib Require Import ZArith Bool List String Reals Lra.
From S2P Require Import Prelude Msgs Controller FloatModel ControllerProps.

Local Open Scope R_scope.

(** [a > b] on reals. *)
Definition Rgtb (a b : R) : bool := if Rlt_dec b a then true else false.

(** [a == b] on reals. *)
Definition Reqb (a b : R) : bool := if Req_dec_T a b then true else false.

#[export] Instance real_scalar : Scalar R := {|
  sc_of_Z := IZR;
  sc_add := Rplus;
  sc_sub := Rminus;
  sc_mul := Rmult;
  sc_div := Rdiv;
  sc_gtb := Rgtb;
  sc_eqb := Reqb;
  sc_cos_quarter_pi := cos (PI / 4)
|}.

(** ** The constants at the reals *)

Lemma Rgtb_true_iff (a b : R) : Rgtb a b = true <-> b < a.
Proof. unfold Rgtb. destruct (Rlt_dec b a); split; intros; auto; discriminate || contradiction. Qed.

Lemma Rgtb_false_iff (a b : R) : Rgtb a b = false <-> a <= b.
Proof. unfold Rgtb. destruct (Rlt_dec b a); split; intros; try lra; discriminate || reflexivity. Qed.

Lemma alpha_R : @alpha R _ = 995 / 1000.
Proof. unfold alpha, sc_dec; simpl. lra. Qed.

Lemma v_max_R : @v_max R _ = 15 / 100.
Proof. unfold v_max, sc_dec; simpl. lra. Qed.

(** The filter gain: [(1 - alpha) * v_max / 2.0 = 3/8000]. *)
Definition gain : R := 3 / 8000.

(** The steady-state scale [v_max / 2]. *)
Definition K : R := 3 / 40.

Lemma smooth_axis_R (s t : R) : smooth_axis s t = 995 / 1000 * s + gain * t.
Proof. unfold smooth_axis, gain. rewrite alpha_R, v_max_R. simpl. field. Qed.

Lemma decay_axis_R (s : R) : decay_axis s = 995 / 1000 * s.
Proof. unfold decay_axis. rewrite alpha_R. reflexivity. Qed.

Lemma sqrt2_bounds : 14 / 10 < sqrt 2 < 15 / 10.
Proof.
  assert (H2 : sqrt 2 ^ 2 = 2) by (apply pow2_sqrt; lra).
  assert (Hp : 0 < sqrt 2) by (apply sqrt_lt_R0; lra).
  split; nra.
Qed.

Lemma cos_angle_R : @cos_angle R _ = / sqrt 2.
Proof. unfold cos_angle; simpl. rewrite cos_PI4. field. apply Rgt_not_eq, sqrt_lt_R0. lra. Qed.

Lemma cos_angle_bounds : 66 / 100 < @cos_angle R _ < 72 / 100.
Proof.
  rewrite cos_angle_R. destruct sqrt2_bounds as [Hl Hu].
  split; [apply (Rmult_lt_reg_l (sqrt 2)) | apply (Rmult_lt_reg_l (sqrt 2))];
    try lra; rewrite Rinv_r; lra.
Qed.

Lemma sc_gtb_R : @sc_gtb R _ = Rgtb.
Proof. reflexivity. Qed.

Lemma sc_zero_R : @sc_zero R _ = 0.
Proof. reflexivity. Qed.

Lemma sc_mul_R : @sc_mul R _ = Rmult.
Proof. reflexivity. Qed.

#[export] Hint Rewrite smooth_axis_R decay_axis_R sc_gtb_R sc_zero_R : ctl_rw.

(** ** Absolute values *)

Lemma Rabs_le_between (v a : R) : Rabs v <= a <-> - a <= v <= a.
Proof. unfold Rabs. destruct (Rcase_abs v); split; intros; lra. Qed.

Ltac rabs_split :=
  repeat match goal with
         | H : Rabs _ <= _ |- _ => apply Rabs_le_between in H
         | |- Rabs _ <= _ => apply Rabs_le_between
         end.

(** ** One axis of the filter *)

Section Axis.
Variable M : R.

(** The filter keeps the smoothed value within [K * M] when the targets
    stay within [M]. *)
Lemma smooth_axis_bound (s t : R) :
  Rabs s <= K * M -> Rabs t <= M -> Rabs (smooth_axis s t) <= K * M.
Proof. intros Hs Ht. rewrite smooth_axis_R. unfold gain, K in *. rabs_split. lra. Qed.

(** One filter step moves the smoothed value by at most
    [2 * gain * M]. *)
Lemma smooth_axis_step (s t : R) :
  Rabs s <= K * M -> Rabs t <= M -> Rabs (smooth_axis s t - s) <= 2 * gain * M.
Proof. intros Hs Ht. rewrite smooth_axis_R. unfold gain, K in *. rabs_split. lra. Qed.

(** The contact clamp only ever replaces a target by zero. *)
Lemma clamp_axis_abs (b : bool) (t l : R) : Rabs (clamp_axis b t l) <= Rabs t.
Proof.
  unfold clamp_axis. destruct (b && _); [|lra].
  change (@sc_zero R _) with (IZR 0). rewrite Rabs_R0. apply Rabs_pos.
Qed.
End Axis.

#[export] Hint Resolve smooth_axis_bound smooth_axis_step clamp_axis_abs : ctl.

(** ** The bound invariant of the controller *)

(** Every linear component within [b]. *)
Definition vec_bounded (b : R) (v : Vector3 R) : Prop :=
  Rabs (x v) <= b /\ Rabs (y v) <= b /\ Rabs (z v) <= b.

(** The stored target within [M] and the smoothed velocity within
    [K * M = v_max / 2 * M] on each linear axis. *)
Definition ctl_inv (M : R) (c : Controller R) : Prop :=
  vec_bounded M (linear (target_velocity c)) /\
  vec_bounded (K * M) (linear (current_velocity c)).

Section Invariant.
Variable M : R.
Hypothesis HM : 0 <= M.

Lemma twist_zero_bounded : vec_bounded M (linear (@twist_zero R _)).
Proof.
  unfold vec_bounded; simpl. change (@sc_zero R _) with (IZR 0).
  rewrite Rabs_R0. lra.
Qed.

Lemma effective_target_bounded now (c : Controller R) :
  vec_bounded M (linear (target_velocity c)) ->
  vec_bounded M (linear (effective_target now c)).
Proof.
  intros Hb. unfold effective_target. destruct (is_stale _ _); auto using twist_zero_bounded.
Qed.

Lemma clamp_target_bounded rs l (t : Twist R) :
  vec_bounded M (linear t) -> vec_bounded M (linear (clamp_target rs l t)).
Proof.
  intros (Hx & Hy & Hz). unfold vec_bounded, clamp_target; simpl.
  repeat split; eapply Rle_trans; eauto with ctl.
Qed.

Lemma smooth_bounded (cur t : Twist R) :
  vec_bounded (K * M) (linear cur) -> vec_bounded M (linear t) ->
  vec_bounded (K * M) (linear (smooth cur t)).
Proof.
  intros (Hx & Hy & Hz) (Tx & Ty & Tz). unfold vec_bounded, smooth; cbn [linear x y z].
  repeat split; auto with ctl.
Qed.

(** The smoothing bound is an invariant of [update]: if the stored
    target is within [M] and the smoothed velocity within
    [v_max / 2 * M] on each axis, both still hold after the tick, through
    the staleness fallback, the contact clamp and the exception path. *)
Lemma update_preserves_inv hs rs now period (c : Controller R) :
  ctl_inv M c -> ctl_inv M (result_controller (update hs rs now period c)).
Proof.
  intros [Ht Hc]. unfold update. destruct (negb _); simpl; [split; assumption|].
  split.
  - apply effective_target_bounded. exact Ht.
  - apply smooth_bounded; [exact Hc|].
    apply clamp_target_bounded, effective_target_bounded. exact Ht.
Qed.

(** Each linear component of [v] within [b] of that of [w]. *)
Definition vec_close (b : R) (v w : Vector3 R) : Prop :=
  Rabs (x v - x w) <= b /\ Rabs (y v - y w) <= b /\ Rabs (z v - z w) <= b.

Lemma update_current_step hs rs now period (c : Controller R) :
  ctl_inv M c ->
  vec_close (2 * gain * M)
    (linear (current_velocity (result_controller (update hs rs now period c))))
    (linear (current_velocity c)).
Proof.
  intros [Ht (Hx & Hy & Hz)]. unfold update, vec_close.
  destruct (negb _); simpl.
  - unfold Rminus. rewrite !Rplus_opp_r, Rabs_R0. unfold gain. repeat split; lra.
  - destruct (clamp_target_bounded rs (latch_update (was_in_contact c) (is_in_contact rs) rs
                (ee_twist_cause_of_contact c)) _ (effective_target_bounded now c Ht))
      as (Tx & Ty & Tz).
    repeat split; apply smooth_axis_step; assumption.
Qed.

Lemma derate_diff (a b : R) : Rabs (derate a - derate b) = cos_angle * Rabs (a - b).
Proof.
  unfold derate; simpl. rewrite <- Rmult_minus_distr_l, Rabs_mult.
  f_equal. apply Rabs_right. pose proof cos_angle_bounds. simpl in H. lra.
Qed.

(** C2. Per-tick bound: under the invariant, one tick moves each
    linear component of the smoothed velocity by at most
    [2 * (1 - alpha) * v_max / 2 * M]; without collision, the command
    then differs from the de-rated previous smoothed velocity (the
    previous tick's command) by at most [cos(pi/4)] times that. *)
Theorem update_step_bound hs rs now period (c : Controller R) :
  ctl_inv M c ->
  vec_close (2 * gain * M)
    (linear (current_velocity (result_controller (update hs rs now period c))))
    (linear (current_velocity c)) /\
  (get_handle hs (robot_handle_name (arm_id c)) = true ->
   is_in_collision rs = false ->
   exists cmd, result_command (update hs rs now period c) = Some cmd /\
     Rabs (at0 cmd - derate (x (linear (current_velocity c)))) <= cos_angle * (2 * gain * M) /\
     Rabs (at1 cmd - derate (y (linear (current_velocity c)))) <= cos_angle * (2 * gain * M) /\
     Rabs (at2 cmd - derate (z (linear (current_velocity c)))) <= cos_angle * (2 * gain * M)).
Proof.
  intros Hinv. pose proof (update_current_step hs rs now period c Hinv) as Hs.
  split; [exact Hs|]. intros Hh Hc.
  rewrite update_result_command by exact Hh. unfold command_velocity. rewrite Hc.
  eexists; split; [reflexivity|]. cbn -[derate cos_angle].
  pose proof cos_angle_bounds as Hcos. destruct Hs as (Sx & Sy & Sz).
  rewrite !derate_diff. repeat split; apply Rmult_le_compat_l; simpl in *; lra.
Qed.
End Invariant.

(** Witness of C2: the state after a unit target has been
    followed to its steady state. *)
Definition ctl_steady : Controller R :=
  mkController "panda" (mkTwist (mkVector3 K 0 0) (mkVector3 0 0 0))
               (mkTwist (mkVector3 1 0 0) (mkVector3 0 0 0)) 0 false
               (mkArray6 0 0 0 0 0 0) 0.

(** A robot state without contact or collision. *)
Definition rs_free : RobotState R :=
  mkRobotState (mkArray6 0 0 0 0 0 0) (mkArray6 0 0 0 0 0 0) (mkArray6 0 0 0 0 0 0).

Lemma ctl_steady_inv : ctl_inv 1 ctl_steady.
Proof.
  unfold ctl_inv, vec_bounded, ctl_steady, K; simpl. rewrite Rabs_R0, Rabs_R1.
  rewrite Rabs_right by lra. repeat split; lra.
Qed.

Lemma update_step_bound_witness :
  vec_close (2 * gain * 1)
    (linear (current_velocity (result_controller (update panda_handles rs_free 1 1 ctl_steady))))
    (linear (current_velocity ctl_steady)) /\
  (get_handle panda_handles (robot_handle_name (arm_id ctl_steady)) = true ->
   is_in_collision rs_free = false ->
   exists cmd, result_command (update panda_handles rs_free 1 1 ctl_steady) = Some cmd /\
     Rabs (at0 cmd - derate (x (linear (current_velocity ctl_steady)))) <= cos_angle * (2 * gain * 1) /\
     Rabs (at1 cmd - derate (y (linear (current_velocity ctl_steady)))) <= cos_angle * (2 * gain * 1) /\
     Rabs (at2 cmd - derate (z (linear (current_velocity ctl_steady)))) <= cos_angle * (2 * gain * 1)).
Proof. apply update_step_bound; [lra | exact ctl_steady_inv]. Defined.

Lemma rs_free_no_contact : is_in_contact rs_free = false.
Proof.
  unfold is_in_contact, contact_axis; simpl.
  rewrite (proj2 (Rgtb_false_iff 0 0)) by lra. reflexivity.
Qed.

(** A unit target reversed against a smoothed velocity at its negative
    steady state. *)
Definition ctl_reversed : Controller R :=
  mkController "panda" (mkTwist (mkVector3 (- K) 0 0) (mkVector3 0 0 0))
               (mkTwist (mkVector3 1 0 0) (mkVector3 0 0 0)) 0 false
               (mkArray6 0 0 0 0 0 0) 0.

(** C12. The per-tick bound of the spec, [(1 - alpha) * v_max / 2 * M],
    does not hold: a target within [M = 1] reversed against the smoothed
    velocity at its steady state [-v_max / 2] moves it by twice that
    bound in one tick, which the bound of C2 attains. *)
Theorem spec_step_bound_exceeded :
  ctl_inv 1 ctl_reversed /\
  x (linear (current_velocity (result_controller (update panda_handles rs_free 1 1 ctl_reversed))))
    - x (linear (current_velocity ctl_reversed)) = 2 * gain * 1 /\
  gain * 1 < 2 * gain * 1.
Proof.
  split; [|split].
  - unfold ctl_inv, vec_bounded, ctl_reversed, K; simpl.
    rewrite Rabs_R0, Rabs_R1, Rabs_left by lra. repeat split; lra.
  - rewrite update_result_controller by reflexivity. cbv zeta.
    rewrite clamp_target_no_contact by exact rs_free_no_contact.
    cbn [current_velocity smooth linear x effective_target].
    unfold effective_target; simpl is_stale; cbv iota.
    rewrite smooth_axis_R. simpl. unfold K, gain. lra.
  - unfold gain. lra.
Qed.

(** C6. The contact clamp in terms of signs: on a tick where the
    x axis is in contact and the target is fresh, the x target is
    dropped when it has the sign of the latched desired velocity (it
    would push further into the obstacle) and passed to the filter
    otherwise (withdrawal is allowed).  The latch is the one after the
    tick, sampled on this tick if contact has just begun. *)
Theorem update_contact_clamp_x hs rs now period (c : Controller R) :
  get_handle hs (robot_handle_name (arm_id c)) = true ->
  is_stale now (time_since_last_target_velocity c) = false ->
  contact_axis rs 0 = true ->
  let c' := result_controller (update hs rs now period c) in
  let l := at0 (ee_twist_cause_of_contact c') in
  let t := x (linear (target_velocity c)) in
  (0 < t * l -> x (linear (current_velocity c')) = 995 / 1000 * x (linear (current_velocity c))) /\
  (t * l <= 0 ->
   x (linear (current_velocity c')) = 995 / 1000 * x (linear (current_velocity c)) + gain * t).
Proof.
  intros Hh Hs Hc. rewrite update_result_controller by exact Hh. cbv zeta.
  unfold effective_target. rewrite Hs.
  cbn [current_velocity ee_twist_cause_of_contact target_velocity smooth clamp_target linear x].
  unfold clamp_axis. rewrite Hc, sc_gtb_R, sc_zero_R, sc_mul_R. cbn [andb].
  split; intros Hl.
  - rewrite (proj2 (Rgtb_true_iff _ _)) by lra. rewrite !smooth_axis_R. unfold gain. lra.
  - rewrite (proj2 (Rgtb_false_iff _ _)) by lra. rewrite smooth_axis_R. reflexivity.
Qed.

(** Contact on x, entered on this tick with a positive desired velocity. *)
Definition rs_contact_x : RobotState R :=
  mkRobotState (mkArray6 1 0 0 0 0 0) (mkArray6 0 0 0 0 0 0) (mkArray6 (1/10) 0 0 0 0 0).

(** Witness of C6: a positive target against the freshly latched
    positive desired velocity. *)
Lemma update_contact_clamp_x_witness :
  let c' := result_controller (update panda_handles rs_contact_x 1 1 ctl_steady) in
  let l := at0 (ee_twist_cause_of_contact c') in
  let t := x (linear (target_velocity ctl_steady)) in
  (0 < t * l -> x (linear (current_velocity c')) = 995 / 1000 * x (linear (current_velocity ctl_steady))) /\
  (t * l <= 0 ->
   x (linear (current_velocity c')) = 995 / 1000 * x (linear (current_velocity ctl_steady)) + gain * t).
Proof.
  apply update_contact_clamp_x; [reflexivity | reflexivity |].
  unfold contact_axis; simpl. apply Rgtb_true_iff. lra.
Defined.
