(* ===== verification/RampDown.v ===== *)
(** * Ramp-down: [stopping] and the zero-target steady state

    How the smoothed velocity decays when the controller is stopped
    ([stopping], lines 176-202, invoked repeatedly) and when the target is
    zero (no message, or a stale one): the generic shape of the decay, its
    closed form and limit in exact arithmetic, the value where binary64
    arithmetic stops it, and the jump of the command at the switch from
    [update] to [stopping]. *)

From Stdlib Require Import ZArith Bool List String Reals Lra Lia PrimFloat.
From S2P Require Import Prelude Msgs Controller FloatModel ControllerProps RealModel.

(** The object and the command one [stopping] call leaves. *)
Definition stop_state {F} `{Scalar F} (c : Controller F) : Controller F := fst (fst (stopping c)).
Definition stop_command {F} `{Scalar F} (c : Controller F) : array6 F := snd (fst (stopping c)).

(** The filter applied [n] times to the zero target. *)
Definition smooth_zero_iter {F} `{Scalar F} (n : nat) (cur : Twist F) : Twist F :=
  Nat.iter n (fun v => smooth v twist_zero) cur.

Section Generic.
Context {F : Type} `{Scalar F}.
Variable hs : list string.

Lemma stop_state_current (c : Controller F) :
  current_velocity (stop_state c) =
    mkTwist (mkVector3 (decay_axis (x (linear (current_velocity c))))
                       (decay_axis (y (linear (current_velocity c))))
                       (decay_axis (z (linear (current_velocity c)))))
            (angular (current_velocity c)).
Proof. reflexivity. Qed.

Lemma stop_command_eq (c : Controller F) :
  stop_command c = command_of (x (linear (current_velocity (stop_state c))),
                               y (linear (current_velocity (stop_state c))),
                               z (linear (current_velocity (stop_state c)))).
Proof. reflexivity. Qed.

(** A zero stored target stays zero and the filter sees zero, stale or
    not, in contact or not. *)
Lemma update_zero_target (rs : RobotState F) now period (c : Controller F) :
  get_handle hs (robot_handle_name (arm_id c)) = true ->
  target_velocity c = twist_zero ->
  target_velocity (result_controller (update hs rs now period c)) = twist_zero /\
  current_velocity (result_controller (update hs rs now period c)) =
    smooth (current_velocity c) twist_zero.
Proof.
  intros Hh Ht. rewrite update_result_controller by exact Hh. cbv zeta; simpl.
  unfold effective_target. rewrite Ht. destruct (is_stale _ _);
    rewrite clamp_target_zero; split; reflexivity.
Qed.

Lemma run_updates_zero_target ticks (c : Controller F) :
  get_handle hs (robot_handle_name (arm_id c)) = true ->
  target_velocity c = twist_zero ->
  current_velocity (run_updates hs ticks c) =
    smooth_zero_iter (List.length ticks) (current_velocity c).
Proof.
  unfold smooth_zero_iter.
  revert c; induction ticks as [|[[rs now] p] t IH]; intros c Hh Ht; simpl; auto.
  destruct (update_zero_target rs now p c Hh Ht) as [Ht' Hc'].
  rewrite IH; [| rewrite update_arm_id; exact Hh | exact Ht'].
  rewrite Hc'. clear. induction (List.length t) as [|n IHn]; simpl; [reflexivity|].
  rewrite IHn. reflexivity.
Qed.
End Generic.

(** ** In exact arithmetic *)

Section Real.
Local Open Scope R_scope.

(** The retention factor [alpha] at the reals. *)
Definition a995 : R := 995 / 1000.

Lemma smooth_zero_R (v : Twist R) :
  linear (smooth v twist_zero) =
    mkVector3 (a995 * x (linear v)) (a995 * y (linear v)) (a995 * z (linear v)).
Proof.
  unfold smooth. cbn [linear x y z]. autorewrite with ctl_rw.
  unfold twist_zero, vector3_zero, sc_zero, a995, gain. simpl. f_equal; ring.
Qed.

Lemma smooth_zero_iter_R n (cur : Twist R) :
  linear (smooth_zero_iter n cur) =
    mkVector3 (a995 ^ n * x (linear cur)) (a995 ^ n * y (linear cur)) (a995 ^ n * z (linear cur)).
Proof.
  induction n as [|n IH].
  - destruct cur as [[cx cy cz] ca]; simpl. f_equal; ring.
  - change (smooth_zero_iter (S n) cur) with (smooth (smooth_zero_iter n cur) twist_zero).
    rewrite smooth_zero_R, IH. simpl. f_equal; ring.
Qed.

Lemma iter_stop_R n (c : Controller R) :
  linear (current_velocity (Nat.iter n stop_state c)) =
    mkVector3 (a995 ^ n * x (linear (current_velocity c)))
              (a995 ^ n * y (linear (current_velocity c)))
              (a995 ^ n * z (linear (current_velocity c))).
Proof.
  induction n as [|n IH].
  - simpl. destruct (current_velocity c) as [[cx cy cz] ca]; simpl. f_equal; ring.
  - change (Nat.iter (S n) stop_state c) with (stop_state (Nat.iter n stop_state c)).
    rewrite stop_state_current. cbn [linear x y z]. rewrite IH. cbn [x y z].
    rewrite !decay_axis_R. unfold a995. simpl. f_equal; ring.
Qed.

Lemma a995_abs : Rabs a995 < 1.
Proof. unfold a995. rewrite Rabs_right; lra. Qed.

(** [a995^n * v] eventually stays below any positive bound. *)
Lemma geometric_small (v eps : R) :
  0 < eps -> exists N, forall n, (n >= N)%nat -> Rabs (a995 ^ n * v) < eps.
Proof.
  intros He.
  assert (Hp : 0 < eps / (Rabs v + 1)).
  { apply Rdiv_lt_0_compat; [exact He|]. pose proof (Rabs_pos v). lra. }
  destruct (pow_lt_1_zero a995 a995_abs _ Hp) as [N HN].
  exists N. intros n Hn. specialize (HN n Hn).
  rewrite Rabs_mult. pose proof (Rabs_pos v). pose proof (Rabs_pos (a995 ^ n)).
  assert (E : eps / (Rabs v + 1) * (Rabs v + 1) = eps) by (field; lra).
  nra.
Qed.

(** From some call on, every linear component of the velocity that
    repeated [stopping] leaves is below any positive bound. *)
Lemma iter_stop_small (c : Controller R) :
  forall eps, 0 < eps -> exists N, forall n, (n >= N)%nat ->
    Rabs (x (linear (current_velocity (Nat.iter n stop_state c)))) < eps /\
    Rabs (y (linear (current_velocity (Nat.iter n stop_state c)))) < eps /\
    Rabs (z (linear (current_velocity (Nat.iter n stop_state c)))) < eps.
Proof.
  intros eps He.
  destruct (geometric_small (x (linear (current_velocity c))) eps He) as [N1 H1].
  destruct (geometric_small (y (linear (current_velocity c))) eps He) as [N2 H2].
  destruct (geometric_small (z (linear (current_velocity c))) eps He) as [N3 H3].
  exists (N1 + N2 + N3)%nat. intros n Hn. rewrite iter_stop_R. cbn [x y z].
  repeat split; [apply H1 | apply H2 | apply H3]; lia.
Qed.

(** C8. Ramp-down: after [n] calls of [stopping] the smoothed velocity
    is [alpha^n] times its initial value on each linear axis, the
    command of the next call is [alpha^(n+1)] times it (angular zero,
    no de-rate), so the commands are non-increasing in magnitude and
    converge to zero. *)
Theorem stopping_geometric_decay (c : Controller R) :
  let v0 := linear (current_velocity c) in
  (forall n, stop_command (Nat.iter n stop_state c) =
     mkArray6 (a995 ^ S n * x v0) (a995 ^ S n * y v0) (a995 ^ S n * z v0) 0 0 0) /\
  (forall n, Rabs (a995 ^ S n * x v0) <= Rabs (a995 ^ n * x v0)) /\
  (forall eps, 0 < eps -> exists N, forall n, (n >= N)%nat ->
     Rabs (x (linear (current_velocity (Nat.iter n stop_state c)))) < eps /\
     Rabs (y (linear (current_velocity (Nat.iter n stop_state c)))) < eps /\
     Rabs (z (linear (current_velocity (Nat.iter n stop_state c)))) < eps).
Proof.
  cbv zeta. split; [|split].
  - intros n. rewrite stop_command_eq.
    change (stop_state (Nat.iter n stop_state c)) with (Nat.iter (S n) stop_state c).
    rewrite (iter_stop_R (S n) c). reflexivity.
  - intros n. simpl. rewrite !Rabs_mult. pose proof (Rabs_pos (a995 ^ n)).
    pose proof (Rabs_pos (x (linear (current_velocity c)))). unfold a995 at 1.
    rewrite (Rabs_right (995 / 1000)) by lra. nra.
  - exact (iter_stop_small c).
Qed.

(** C9. Zero-target steady state: with a zero stored target (none
    received, or a stale one already cleared), every run of [n] ticks,
    whatever the contact, collision and timing inputs, leaves the
    smoothed velocity at [alpha^n] times its initial value: it
    converges to zero, stays at zero once there, and never reaches
    zero from a nonzero value. *)
Theorem run_updates_zero_target_R hs ticks (c : Controller R) :
  get_handle hs (robot_handle_name (arm_id c)) = true ->
  target_velocity c = twist_zero ->
  linear (current_velocity (run_updates hs ticks c)) =
    mkVector3 (a995 ^ List.length ticks * x (linear (current_velocity c)))
              (a995 ^ List.length ticks * y (linear (current_velocity c)))
              (a995 ^ List.length ticks * z (linear (current_velocity c))) /\
  (x (linear (current_velocity c)) <> 0 -> x (linear (current_velocity (run_updates hs ticks c))) <> 0).
Proof.
  intros Hh Ht. rewrite run_updates_zero_target by assumption.
  rewrite smooth_zero_iter_R. split; [reflexivity|]. simpl. intros Hx.
  apply Rmult_integral_contrapositive_currified; [|exact Hx].
  apply pow_nonzero. unfold a995. lra.
Qed.

(** C11. Switching from [update] to [stopping] makes the command jump:
    the last tick commanded [cos(pi/4) * v], the first [stopping] call
    commands [alpha * v] (no de-rate), a difference of
    [(alpha - cos(pi/4)) * |v|]; at the steady state of a target of
    size [M] this is more than 30 times the largest change of the
    command between two ticks (C2). *)
Theorem stopping_switch_jump (M : R) (c : Controller R) :
  0 < M ->
  Rabs (x (linear (current_velocity c))) = K * M ->
  Rabs (at0 (stop_command c) - derate (x (linear (current_velocity c)))) =
    (a995 - cos_angle) * Rabs (x (linear (current_velocity c))) /\
  Rabs (at0 (stop_command c) - derate (x (linear (current_velocity c)))) >
    30 * (cos_angle * (2 * gain * M)).
Proof.
  intros HM Hv. pose proof cos_angle_bounds as Hc.
  assert (E : Rabs (at0 (stop_command c) - derate (x (linear (current_velocity c)))) =
              (a995 - cos_angle) * Rabs (x (linear (current_velocity c)))).
  { rewrite stop_command_eq, stop_state_current. cbn [command_of at0 linear x].
    rewrite decay_axis_R. unfold derate. simpl sc_mul.
    rewrite <- Rmult_minus_distr_r, Rabs_mult, (Rabs_right (_ - _)); [reflexivity|].
    unfold a995 in *; simpl in Hc; lra. }
  split; [exact E|]. rewrite E, Hv. unfold a995, gain, K.
  destruct Hc as [Hc1 Hc2]. nra.
Qed.

End Real.

Local Open Scope R_scope.

(** Witness of C9: a smoothed velocity of [K] with a zero target, over
    three ticks in and out of contact. *)
Lemma run_updates_zero_target_R_witness :
  let c := mkController "panda" (mkTwist (mkVector3 K 0 0) (mkVector3 0 0 0)) twist_zero 0 false
                        (mkArray6 0 0 0 0 0 0) 0 in
  let ticks := ((rs_free, 0%Z, 1%Z) :: (rs_contact_x, 1%Z, 1%Z) :: (rs_free, 5000000000%Z, 1%Z) :: nil) in
  linear (current_velocity (run_updates panda_handles ticks c)) =
    mkVector3 (a995 ^ List.length ticks * x (linear (current_velocity c)))
              (a995 ^ List.length ticks * y (linear (current_velocity c)))
              (a995 ^ List.length ticks * z (linear (current_velocity c))) /\
  (x (linear (current_velocity c)) <> 0%R ->
   x (linear (current_velocity (run_updates panda_handles ticks c))) <> 0%R).
Proof. apply run_updates_zero_target_R; reflexivity. Defined.

(** Witness of C11: the steady state of a unit target. *)
Lemma stopping_switch_jump_witness :
  Rabs (at0 (stop_command ctl_steady) - derate (x (linear (current_velocity ctl_steady)))) =
    ((a995 - cos_angle) * Rabs (x (linear (current_velocity ctl_steady))))%R /\
  (Rabs (at0 (stop_command ctl_steady) - derate (x (linear (current_velocity ctl_steady)))) >
    30 * (cos_angle * (2 * gain * 1)))%R.
Proof.
  apply stopping_switch_jump; [lra|]. simpl. rewrite Rmult_1_r. unfold K. apply Rabs_right. lra.
Defined.

(** ** In binary64 *)

(** C20. In binary64 the zero-target decay never reaches zero: from the
    least positive double, every run of ticks with a zero stored target,
    whatever its inputs, and every number of [stopping] calls leave the
    smoothed x velocity at that nonzero double, because [0.995 * v]
    rounds back to [v] there. *)
Theorem float_zero_target_floor (ticks : list (RobotState float * Z * Z)) (n : nat) :
  let c := ctl_of (twist_lin float_denorm_min 0 0) twist_zero false arr6_zero in
  x (linear (current_velocity (run_updates panda_handles ticks c))) = float_denorm_min /\
  x (linear (current_velocity (Nat.iter n stop_state c))) = float_denorm_min /\
  PrimFloat.eqb float_denorm_min 0 = false.
Proof.
  cbv zeta. split; [|split; [|vm_compute; reflexivity]].
  - rewrite run_updates_zero_target by reflexivity.
    assert (Hfix : forall k, smooth_zero_iter k (twist_lin float_denorm_min 0 0) =
                             twist_lin float_denorm_min 0 0).
    { induction k as [|k IH]; [reflexivity|].
      unfold smooth_zero_iter in *. simpl. rewrite IH. vm_compute. reflexivity. }
    rewrite Hfix. reflexivity.
  - induction n as [|n IH]; [reflexivity|].
    simpl Nat.iter. rewrite stop_state_current. simpl. rewrite IH. exact decay_axis_denorm_min.
Qed.

