(* ===== verification/Race.v ===== *)
(** * The callback thread against the real-time thread

    [target_velocity_callback] runs in the ROS spinner thread and
    [update] in the control loop; both access the controller's fields
    [target_velocity] and [time_since_last_target_velocity] without a
    lock.  This file models those accesses as a small-step system: each
    thread is a program counter over the statements that touch the shared
    fields (one statement, one atomic step), and a schedule is the list of
    threads that take the successive steps.  [exit(-1)] ends both
    threads.  Interleaved schedules lose a message or let a NaN
    through. *)

From Stdlib Require Import ZArith Bool List String PrimFloat.
From S2P Require Import Prelude Msgs Controller FloatModel ControllerProps.
Import ListNotations.

Section Race.
Context {F : Type} `{Scalar F}.

(** The fields both threads access. *)
Record Shared := mkShared { sh_target : Twist F; sh_stamp : Z }.

(** Where the callback thread is: before line 67, before the test of
    lines 69-74, before line 80, returned, or the process has exited. *)
Inductive CbPc := CbAtStore | CbAtCheck | CbAtStamp | CbReturned | CbExited.

(** Where [update] is in its accesses: before the test of line 112,
    before line 113 with the test's outcome, before the copy of line 116,
    or after it with the copied target. *)
Inductive UpPc :=
  | UpAtStaleTest
  | UpAtReset (stale : bool)
  | UpAtCopy
  | UpCopied (t : Twist F).

Record Sys := mkSys { sys_shared : Shared; sys_cb : CbPc; sys_up : UpPc }.

(** One statement of the callback handling [msg] at time [t_msg]. *)
Definition cb_step (msg : Twist F) (t_msg : Z) (s : Sys) : Sys :=
  let sh := sys_shared s in
  match sys_cb s with
  | CbAtStore => mkSys (mkShared msg (sh_stamp sh)) CbAtCheck (sys_up s)
  | CbAtCheck =>
      if twist_has_nan (sh_target sh) then mkSys sh CbExited (sys_up s)
      else mkSys sh CbAtStamp (sys_up s)
  | CbAtStamp => mkSys (mkShared (sh_target sh) t_msg) CbReturned (sys_up s)
  | CbReturned | CbExited => s
  end.

(** One shared access of [update] at time [now]. *)
Definition up_step (now : Z) (s : Sys) : Sys :=
  let sh := sys_shared s in
  match sys_up s with
  | UpAtStaleTest => mkSys sh (sys_cb s) (UpAtReset (is_stale now (sh_stamp sh)))
  | UpAtReset stale =>
      mkSys (if stale then mkShared twist_zero (sh_stamp sh) else sh) (sys_cb s) UpAtCopy
  | UpAtCopy => mkSys sh (sys_cb s) (UpCopied (sh_target sh))
  | UpCopied _ => s
  end.

Inductive thread := Tcb | Tup.

(** A step of the scheduled thread; after [exit] nothing runs. *)
Definition sys_step (msg : Twist F) (t_msg now : Z) (s : Sys) (th : thread) : Sys :=
  match sys_cb s with
  | CbExited => s
  | _ => match th with Tcb => cb_step msg t_msg s | Tup => up_step now s end
  end.

Definition run_sched (msg : Twist F) (t_msg now : Z) (sched : list thread) (s : Sys) : Sys :=
  fold_left (sys_step msg t_msg now) sched s.

(** Both threads about to start, on the shared fields of [c]. *)
Definition sys_of (c : Controller F) : Sys :=
  mkSys (mkShared (target_velocity c) (time_since_last_target_velocity c)) CbAtStore UpAtStaleTest.

(** The shared fields of a controller object. *)
Definition shared_of (c : Controller F) : Shared :=
  mkShared (target_velocity c) (time_since_last_target_velocity c).

(** The object a callback leaves, returned or exited. *)
Definition cb_controller (r : callback_result F) : Controller F :=
  match r with CbStored c => c | CbExit c => c end.

Definition cb_exited (r : callback_result F) : bool :=
  match r with CbStored _ => false | CbExit _ => true end.

(** The three steps of each thread in a row. *)
Definition cb_then_up : list thread := [Tcb; Tcb; Tcb; Tup; Tup; Tup].
Definition up_then_cb : list thread := [Tup; Tup; Tup; Tcb; Tcb; Tcb].

End Race.

Arguments Shared F : clear implicits.
Arguments Sys F : clear implicits.

Section Schedules.
Context {F : Type} `{Scalar F}.

(** The object [c] with the shared fields [sh]. *)
Definition with_shared (c : Controller F) (sh : Shared F) : Controller F :=
  mkController (arm_id c) (current_velocity c) (sh_target sh) (sh_stamp sh)
               (was_in_contact c) (ee_twist_cause_of_contact c) (elapsed_time_ c).

End Schedules.

(** The interleavings of the findings. *)
Definition lost_update_sched : list thread := [Tup; Tcb; Tcb; Tcb; Tup; Tup].
Definition nan_read_sched : list thread := [Tcb; Tup; Tup; Tup; Tcb].
Definition nan_hidden_sched : list thread := [Tup; Tcb; Tup; Tcb; Tcb; Tup].

Ltac run_sys En :=
  unfold run_sched, lost_update_sched, nan_read_sched, nan_hidden_sched, up_then_cb, sys_of;
  cbn -[is_stale twist_has_nan]; rewrite ?En; cbn -[is_stale twist_has_nan].

Section Races.
Context {F : Type} `{Scalar F}.

(** C21. Lost update: when the stored target is stale, [update] can
    test the stamp, the callback can then store a valid message and stamp
    it, and [update] then overwrites it with zero.  The fresh stamp keeps
    the zero target for the next two seconds: every tick in that window
    filters towards zero, where any sequential order filters towards the
    message. *)
Theorem lost_update_race (msg : Twist F) t_msg now (c : Controller F) :
  twist_has_nan msg = false ->
  is_stale now (time_since_last_target_velocity c) = true ->
  run_sched msg t_msg now lost_update_sched (sys_of c) =
    mkSys (mkShared twist_zero t_msg) CbReturned (UpCopied twist_zero) /\
  sys_shared (run_sched msg t_msg now up_then_cb (sys_of c)) = mkShared msg t_msg /\
  (forall now', is_stale now' t_msg = false ->
     effective_target now'
       (with_shared c (sys_shared (run_sched msg t_msg now lost_update_sched (sys_of c))))
       = twist_zero /\
     effective_target now'
       (with_shared c (sys_shared (run_sched msg t_msg now up_then_cb (sys_of c)))) = msg).
Proof.
  intros En Hs.
  assert (E1 : run_sched msg t_msg now lost_update_sched (sys_of c) =
               mkSys (mkShared twist_zero t_msg) CbReturned (UpCopied twist_zero))
    by (run_sys En; rewrite Hs; reflexivity).
  assert (E2 : sys_shared (run_sched msg t_msg now up_then_cb (sys_of c)) = mkShared msg t_msg)
    by (run_sys En; rewrite ?Hs; cbn -[is_stale twist_has_nan]; rewrite ?En; reflexivity).
  split; [exact E1|]. split; [exact E2|].
  intros now' Hf. rewrite E1, E2. unfold effective_target; simpl. rewrite Hf. split; reflexivity.
Qed.

(** C22. A NaN reaches [update]: the callback stores the message before
    testing it, so [update] can copy the NaN target between the store
    and the [exit]; in the sequential order the process exits before
    [update] reads anything. *)
Theorem nan_read_before_exit (msg : Twist F) t_msg now (c : Controller F) :
  twist_has_nan msg = true ->
  is_stale now (time_since_last_target_velocity c) = false ->
  run_sched msg t_msg now nan_read_sched (sys_of c) =
    mkSys (mkShared msg (time_since_last_target_velocity c)) CbExited (UpCopied msg) /\
  sys_up (run_sched msg t_msg now cb_then_up (sys_of c)) = UpAtStaleTest.
Proof.
  intros En Hs. split.
  - run_sys En. rewrite Hs. cbn -[is_stale twist_has_nan]. rewrite En. reflexivity.
  - unfold run_sched, cb_then_up, sys_of. cbn -[is_stale twist_has_nan]. rewrite En. reflexivity.
Qed.

(** C23. A NaN message can also escape the fatal test without a trace:
    when the stored target is stale, [update]'s reset can overwrite the
    NaN between the callback's store and its test, so the test sees the
    zero Twist, the process does not exit and the zero target is stamped
    as fresh. *)
Theorem nan_hidden_by_reset (msg : Twist F) t_msg now (c : Controller F) :
  twist_has_nan (@twist_zero F _) = false ->
  twist_has_nan msg = true ->
  is_stale now (time_since_last_target_velocity c) = true ->
  run_sched msg t_msg now nan_hidden_sched (sys_of c) =
    mkSys (mkShared twist_zero t_msg) CbReturned (UpCopied twist_zero).
Proof.
  intros Ez En Hs. run_sys En. rewrite Hs. cbn -[is_stale twist_has_nan]. rewrite Ez. reflexivity.
Qed.
End Races.

(** Witnesses at binary64: a valid unit message, and [nan_twist]. *)
Definition ctl_stale : Controller float := ctl_of twist_zero (twist_lin 1 0 0) false arr6_zero.

Lemma lost_update_race_witness :
  run_sched (twist_lin 0.5 0 0) 3000000000 3000000001 lost_update_sched (sys_of ctl_stale) =
    mkSys (mkShared twist_zero 3000000000) CbReturned (UpCopied twist_zero) /\
  sys_shared (run_sched (twist_lin 0.5 0 0) 3000000000 3000000001 up_then_cb (sys_of ctl_stale)) =
    mkShared (twist_lin 0.5 0 0) 3000000000 /\
  (forall now', is_stale now' 3000000000 = false ->
     effective_target now' (with_shared ctl_stale (sys_shared
       (run_sched (twist_lin 0.5 0 0) 3000000000 3000000001 lost_update_sched (sys_of ctl_stale))))
       = twist_zero /\
     effective_target now' (with_shared ctl_stale (sys_shared
       (run_sched (twist_lin 0.5 0 0) 3000000000 3000000001 up_then_cb (sys_of ctl_stale))))
       = twist_lin 0.5 0 0).
Proof. apply lost_update_race; vm_compute; reflexivity. Defined.

Lemma nan_read_before_exit_witness :
  run_sched nan_twist 5 1000 nan_read_sched (sys_of ctl_stale) =
    mkSys (mkShared nan_twist 0) CbExited (UpCopied nan_twist) /\
  sys_up (run_sched nan_twist 5 1000 cb_then_up (sys_of ctl_stale)) = UpAtStaleTest.
Proof. apply nan_read_before_exit; vm_compute; reflexivity. Defined.

Lemma nan_hidden_by_reset_witness :
  run_sched nan_twist 3000000000 3000000001 nan_hidden_sched (sys_of ctl_stale) =
    mkSys (mkShared twist_zero 3000000000) CbReturned (UpCopied twist_zero).
Proof. apply nan_hidden_by_reset; vm_compute; reflexivity. Defined.

