(* ===== verification/Lifecycle.v ===== *)
(** * The controller's lifecycle under controller_manager

    ros_control's controller_manager calls [init] once, then [starting],
    [update] on every tick and [stopping], possibly starting the
    controller again; the subscription made by [init] delivers messages to
    [target_velocity_callback] at any time after it.  An uncaught
    exception in [update] and [exit(-1)] in the callback end the process.
    This file models that protocol as a step relation [lstep] over the
    phase, the state handle names [init] bound, and the controller object,
    with an executable step function proved equivalent to it, and proves
    properties of every reachable state by rule induction. *)

From Stdlib Require Import ZArith Bool List String Reals Lra PrimFloat.
From S2P Require Import Prelude Msgs Controller FloatModel ControllerProps RealModel RampDown Race.
Import ListNotations.

(** The macro-state of the controller plugin and its process. *)
Inductive Phase := Constructed | InitFailed | Initialized | Running | Stopped | Exited.

Section Lifecycle.
Context {F : Type} `{Scalar F}.

Record World := mkWorld {
  w_phase : Phase;
  w_handles : list string;
  w_ctl : Controller F
}.

(** What the host and the subscription do. *)
Inductive Event :=
  | EvInit (arm_param : option string) (hw : RobotHW) (now : Z)
  | EvStart
  | EvUpdate (rs : RobotState F) (now period : Z)
  | EvStop
  | EvMsg (msg : Twist F) (now : Z).

(** The names of the state interface's handles that [init] binds. *)
Definition bound_handles (hw : RobotHW) : list string :=
  match hw_state_interface hw with Some hs => hs | None => [] end.

(** The phases in which the subscription exists and delivers messages. *)
Definition subscribed (ph : Phase) : bool :=
  match ph with Initialized | Running | Stopped => true | _ => false end.

Inductive lstep : World -> Event -> World -> Prop :=
  | ls_init_ok p hw now hs c c' :
      init p hw now c = inr c' ->
      lstep (mkWorld Constructed hs c) (EvInit p hw now) (mkWorld Initialized (bound_handles hw) c')
  | ls_init_fail p hw now hs c err :
      init p hw now c = inl err ->
      lstep (mkWorld Constructed hs c) (EvInit p hw now) (mkWorld InitFailed hs c)
  | ls_start ph hs c :
      ph = Initialized \/ ph = Stopped ->
      lstep (mkWorld ph hs c) EvStart (mkWorld Running hs (starting c))
  | ls_update_ok hs rs now period c c' cmd msg :
      update hs rs now period c = UpdOk c' cmd msg ->
      lstep (mkWorld Running hs c) (EvUpdate rs now period) (mkWorld Running hs c')
  | ls_update_throw hs rs now period c c' :
      update hs rs now period c = UpdThrow c' ->
      lstep (mkWorld Running hs c) (EvUpdate rs now period) (mkWorld Exited hs c')
  | ls_stop hs c :
      lstep (mkWorld Running hs c) EvStop (mkWorld Stopped hs (stop_state c))
  | ls_msg_ok ph hs msg now c c' :
      subscribed ph = true ->
      target_velocity_callback msg now c = CbStored c' ->
      lstep (mkWorld ph hs c) (EvMsg msg now) (mkWorld ph hs c')
  | ls_msg_exit ph hs msg now c c' :
      subscribed ph = true ->
      target_velocity_callback msg now c = CbExit c' ->
      lstep (mkWorld ph hs c) (EvMsg msg now) (mkWorld Exited hs c').

(** The same protocol as a function: [None] for an event the host does
    not produce in that phase. *)
Definition lstep_fn (w : World) (e : Event) : option World :=
  let hs := w_handles w in
  let c := w_ctl w in
  match w_phase w, e with
  | Constructed, EvInit p hw now =>
      match init p hw now c with
      | inr c' => Some (mkWorld Initialized (bound_handles hw) c')
      | inl _ => Some (mkWorld InitFailed hs c)
      end
  | (Initialized | Stopped), EvStart => Some (mkWorld Running hs (starting c))
  | Running, EvUpdate rs now period =>
      match update hs rs now period c with
      | UpdOk c' _ _ => Some (mkWorld Running hs c')
      | UpdThrow c' => Some (mkWorld Exited hs c')
      end
  | Running, EvStop => Some (mkWorld Stopped hs (stop_state c))
  | ph, EvMsg msg now =>
      if subscribed ph then
        match target_velocity_callback msg now c with
        | CbStored c' => Some (mkWorld ph hs c')
        | CbExit c' => Some (mkWorld Exited hs c')
        end
      else None
  | _, _ => None
  end.

(** The worlds reachable from [w0] by events satisfying [ok]. *)
Inductive reachable (ok : Event -> Prop) (w0 : World) : World -> Prop :=
  | reach_refl : reachable ok w0 w0
  | reach_step w e w' : reachable ok w0 w -> ok e -> lstep w e w' -> reachable ok w0 w'.

(** Run a list of events with the step function. *)
Fixpoint run_events (w : World) (es : list Event) : option World :=
  match es with
  | [] => Some w
  | e :: rest => match lstep_fn w e with Some w' => run_events w' rest | None => None end
  end.
End Lifecycle.

Arguments World F : clear implicits.
Arguments Event F : clear implicits.

Section Protocol.
Context {F : Type} `{Scalar F}.

Lemma lstep_fn_sound (w : World F) e w' : lstep_fn w e = Some w' -> lstep w e w'.
Proof.
  destruct w as [ph hs c]; unfold lstep_fn; cbn [w_phase w_handles w_ctl].
  destruct ph, e; try discriminate;
    repeat match goal with
           | |- context [match ?m with _ => _ end] => destruct m eqn:?
           | |- context [if ?b then _ else _] => destruct b eqn:?
           end;
    try discriminate; intros E; injection E as <-; econstructor; eauto.
Qed.

Lemma lstep_fn_complete (w : World F) e w' : lstep w e w' -> lstep_fn w e = Some w'.
Proof.
  intros Hs; destruct Hs; unfold lstep_fn; cbn [w_phase w_handles w_ctl];
    repeat match goal with H : _ \/ _ |- _ => destruct H as [-> | ->] end;
    repeat match goal with H : ?m = _ |- context [?m] => rewrite H end;
    try reflexivity; destruct ph; discriminate || reflexivity.
Qed.

Lemma run_events_reachable (ok : Event F -> Prop) es (w0 w w' : World F) :
  reachable ok w0 w -> Forall ok es -> run_events w es = Some w' -> reachable ok w0 w'.
Proof.
  revert w; induction es as [|e es IH]; intros w Hr Hok; simpl.
  - intros E; injection E as <-; exact Hr.
  - inversion Hok as [|? ? He Hes]; subst.
    destruct (lstep_fn w e) as [w1|] eqn:E1; [|discriminate].
    apply IH; [|exact Hes]. eapply reach_step; eauto using lstep_fn_sound.
Qed.

(** Events of a correctly configured system: the arm's handle exists in
    the state interface, and no message carries a NaN. *)
Definition configured_event (e : Event F) : Prop :=
  match e with
  | EvInit p hw _ =>
      forall arm hs, p = Some arm -> hw_state_interface hw = Some hs ->
                     get_handle hs (robot_handle_name arm) = true
  | EvMsg msg _ => twist_has_nan msg = false
  | _ => True
  end.

(** The invariant behind C24. *)
Definition healthy (w : World F) : Prop :=
  match w_phase w with
  | Constructed | InitFailed => True
  | Exited => False
  | _ => get_handle (w_handles w) (robot_handle_name (arm_id (w_ctl w))) = true
  end.

Lemma init_ok_arm p hw now (c c' : Controller F) :
  init p hw now c = inr c' ->
  p = Some (arm_id c') /\ exists hs, hw_state_interface hw = Some hs.
Proof.
  unfold init. destruct p as [arm|]; [|discriminate].
  destruct (hw_velocity_cartesian_interface hw); [|discriminate].
  destruct (negb _); [discriminate|].
  destruct (hw_state_interface hw) as [hs|]; [|discriminate].
  intros E; injection E as <-. eauto.
Qed.

Lemma callback_arm_id msg now (c : Controller F) :
  arm_id (cb_controller (target_velocity_callback msg now c)) = arm_id c.
Proof. unfold target_velocity_callback. destruct (twist_has_nan msg); reflexivity. Qed.

Lemma healthy_step (w w' : World F) e :
  healthy w -> configured_event e -> lstep w e w' -> healthy w'.
Proof.
  intros Hw He Hs.
  destruct Hs as [p hw now hs c c' Hi | p hw now hs c err Hi | ph hs c Hph
                 | hs rs now period c c' cmd msg Hu | hs rs now period c c' Hu | hs c
                 | ph hs msg now c c' Hsub Hcb | ph hs msg now c c' Hsub Hcb];
    unfold healthy in *; cbn [w_phase w_handles w_ctl] in *.
  - destruct (init_ok_arm _ _ _ _ _ Hi) as [Ep [sh Esh]].
    unfold bound_handles. rewrite Esh. exact (He _ _ Ep Esh).
  - exact I.
  - destruct Hph as [-> | ->]; exact Hw.
  - pose proof (update_arm_id hs rs now period c) as E. rewrite Hu in E. simpl in E.
    rewrite E. exact Hw.
  - unfold update in Hu. rewrite Hw in Hu. discriminate.
  - exact Hw.
  - pose proof (callback_arm_id msg now c) as E. rewrite Hcb in E. simpl in E.
    destruct ph; try discriminate; rewrite E; exact Hw.
  - unfold target_velocity_callback in Hcb. rewrite He in Hcb. discriminate.
Qed.

(** C24. With the arm's handle present in the state interface and no
    NaN message, no sequence of host calls and messages ever ends the
    process. *)
Theorem configured_never_exits (w0 w : World F) :
  w_phase w0 = Constructed ->
  reachable configured_event w0 w -> w_phase w <> Exited.
Proof.
  intros H0 Hr.
  assert (Hh : healthy w).
  { induction Hr as [|w1 e w2 Hr IH He Hs].
    - unfold healthy. rewrite H0. exact I.
    - eapply healthy_step; eauto. }
  unfold healthy in Hh. destruct (w_phase w); congruence.
Qed.
End Protocol.

Lemma init_ok_fields {F} `{Scalar F} p hw now (c c' : Controller F) :
  init p hw now c = inr c' ->
  current_velocity c' = twist_zero /\ target_velocity c' = target_velocity c.
Proof.
  unfold init. destruct p; [|discriminate].
  destruct (hw_velocity_cartesian_interface hw); [|discriminate].
  destruct (negb _); [discriminate|].
  destruct (hw_state_interface hw); [|discriminate].
  intros E; injection E as <-. split; reflexivity.
Qed.

Lemma callback_fields {F} `{Scalar F} msg now (c : Controller F) :
  target_velocity (cb_controller (target_velocity_callback msg now c)) = msg /\
  current_velocity (cb_controller (target_velocity_callback msg now c)) = current_velocity c.
Proof. unfold target_velocity_callback. destruct (twist_has_nan msg); split; reflexivity. Qed.

(** ** Every reachable state keeps the bound *)

Section Bounded.
Local Open Scope R_scope.

(** Messages whose linear components are within [M]. *)
Definition bounded_event (M : R) (e : Event R) : Prop :=
  match e with EvMsg msg _ => vec_bounded M (linear msg) | _ => True end.

Lemma decay_vec_bounded (b : R) (v : Vector3 R) :
  vec_bounded b v ->
  vec_bounded b (mkVector3 (decay_axis (x v)) (decay_axis (y v)) (decay_axis (z v))).
Proof.
  intros (Hx & Hy & Hz). unfold vec_bounded. cbn [x y z]. rewrite !decay_axis_R.
  rewrite !Rabs_mult, (Rabs_right (995 / 1000)) by lra.
  pose proof (Rabs_pos (x v)); pose proof (Rabs_pos (y v)); pose proof (Rabs_pos (z v)).
  repeat split; lra.
Qed.

Lemma ctl_inv_step (M : R) (w w' : World R) e :
  0 <= M -> ctl_inv M (w_ctl w) -> bounded_event M e -> lstep w e w' -> ctl_inv M (w_ctl w').
Proof.
  intros HM [Ht Hc] He Hs.
  assert (HK : 0 <= K * M) by (unfold K; lra).
  destruct Hs as [p hw now hs c c' Hi | p hw now hs c err Hi | ph hs c Hph
                 | hs rs now period c c' cmd msg Hu | hs rs now period c c' Hu | hs c
                 | ph hs msg now c c' Hsub Hcb | ph hs msg now c c' Hsub Hcb];
    cbn [w_ctl] in *.
  - destruct (init_ok_fields _ _ _ _ _ Hi) as [Ec Et]. split.
    + rewrite Et. exact Ht.
    + rewrite Ec. exact (twist_zero_bounded (K * M) HK).
  - split; assumption.
  - split; [exact Ht | exact (twist_zero_bounded (K * M) HK)].
  - pose proof (update_preserves_inv M HM hs rs now period c (conj Ht Hc)) as Hi.
    rewrite Hu in Hi. exact Hi.
  - pose proof (update_preserves_inv M HM hs rs now period c (conj Ht Hc)) as Hi.
    rewrite Hu in Hi. exact Hi.
  - split; [exact Ht|]. rewrite stop_state_current. apply decay_vec_bounded. exact Hc.
  - destruct (callback_fields msg now c) as [Et Ec]. rewrite Hcb in Et, Ec. simpl in Et, Ec.
    split; [rewrite Et; exact He | rewrite Ec; exact Hc].
  - destruct (callback_fields msg now c) as [Et Ec]. rewrite Hcb in Et, Ec. simpl in Et, Ec.
    split; [rewrite Et; exact He | rewrite Ec; exact Hc].
Qed.

(** C1. The smoothing bound holds on every reachable state: if every
    message's linear components are within [M], then through any
    sequence of [init], [starting], [update], [stopping] and callbacks the
    stored target stays within [M] and the smoothed velocity within
    [v_max / 2 * M] on each linear axis. *)
Theorem reachable_ctl_inv (M : R) (w0 w : World R) :
  0 <= M -> ctl_inv M (w_ctl w0) ->
  reachable (bounded_event M) w0 w -> ctl_inv M (w_ctl w).
Proof.
  intros HM H0 Hr. induction Hr as [|w1 e w2 Hr IH He Hs]; [exact H0|].
  eapply ctl_inv_step; eauto.
Qed.
End Bounded.

(** ** Witnesses on concrete traces *)

Definition hw_ok : RobotHW := mkRobotHW (Some panda_handles) (Some panda_handles).

(** A constructed controller object at binary64 and a trace of the host:
    init, start, a message, a tick in contact, stop. *)
Definition w0_float : World float := mkWorld Constructed [] (ctl_of twist_zero twist_zero false arr6_zero).

Definition trace_float : list (Event float) :=
  [EvInit (Some "panda"%string) hw_ok 0; EvStart; EvMsg (twist_lin 1 0 0) 1;
   EvUpdate (rs_of 1 0 dP_a) 2 1; EvStop].

Definition final_float : World float :=
  match run_events w0_float trace_float with Some w => w | None => w0_float end.

Lemma configured_never_exits_witness : w_phase final_float <> Exited.
Proof.
  apply (configured_never_exits w0_float); [reflexivity|].
  unfold final_float. destruct (run_events w0_float trace_float) as [w|] eqn:E; [|apply reach_refl].
  apply (run_events_reachable _ trace_float w0_float w0_float w (reach_refl _ _)); [|exact E].
  constructor. { intros arm hs Ea Eh. injection Ea as <-. injection Eh as <-. reflexivity. }
  constructor. { exact I. }
  constructor. { vm_compute. reflexivity. }
  constructor. { exact I. }
  constructor. { exact I. }
  constructor.
Defined.

(** At the reals: init, start and stop from the constructed object. *)
Definition c0_R : Controller R :=
  mkController "panda" twist_zero twist_zero 0 false (mkArray6 0%R 0%R 0%R 0%R 0%R 0%R) 0.

Lemma reachable_ctl_inv_witness :
  ctl_inv 1 (w_ctl (mkWorld Stopped panda_handles (stop_state (starting c0_R)))).
Proof.
  apply (reachable_ctl_inv 1 (mkWorld Constructed [] c0_R)).
  - lra.
  - unfold ctl_inv, vec_bounded, c0_R. simpl. rewrite Rabs_R0. unfold K. repeat split; lra.
  - eapply reach_step with (e := EvStop); [| exact I | apply ls_stop].
    eapply reach_step with (e := EvStart); [| exact I | apply ls_start; left; reflexivity].
    eapply reach_step with (e := EvInit (Some "panda"%string) hw_ok 0);
      [apply reach_refl | exact I |].
    apply (ls_init_ok (Some "panda"%string) hw_ok 0 [] c0_R c0_R). reflexivity.
Defined.
