(* ===== verification/Refinement.v ===== *)
(** * The shaping core against its specification

    Spec sections 4.1 and 4.2 describe the target buffer as a
    last-write-wins mailbox read without mutation ("never" before the
    first message) and the core as a state of its own (smoothed velocity,
    latch, last contact state) advanced once per tick with the zero
    target substituted on a stale tick.  The code keeps the target in the
    controller object and, on a stale tick, overwrites it with zero.
    This file states the specification as [Mailbox], [Core] and
    [core_tick] (the per-axis arithmetic is the code's, so the comparison
    is about the state), and proves that, when time never goes back, the
    code's sequence of commands is the specification's; when the clock
    steps back it is not. *)

From Stdlib Require Import ZArith Bool List String PrimFloat Lia.
From S2P Require Import Prelude Msgs Controller FloatModel ControllerProps.
Import ListNotations.

Section Spec.
Context {F : Type} `{Scalar F}.

(** The mailbox of spec section 4.1: the last message and when it was
    received, [None] for "never". *)
Record Mailbox := mkMailbox { mb_twist : Twist F; mb_time : option Z }.

(** [read()]: the target of this tick, zero when none was received or the
    last one is stale.  The mailbox is not changed. *)
Definition mb_read (mb : Mailbox) (now : Z) : Twist F :=
  match mb_time mb with
  | None => twist_zero
  | Some t => if is_stale now t then twist_zero else mb_twist mb
  end.

(** [submit(twist)] of a validated message. *)
Definition mb_submit (msg : Twist F) (now : Z) : Mailbox := mkMailbox msg (Some now).

(** The core's own state (spec section 3). *)
Record Core := mkCore {
  core_smoothed : Twist F;
  core_latch : array6 F;
  core_last_contact : bool
}.

(** Steps 2-9 of spec section 4.2 on the target [eff] of this tick. *)
Definition core_tick (core : Core) (eff : Twist F) (rs : RobotState F) : Core * array6 F :=
  let contact := is_in_contact rs in
  let latch := if negb (core_last_contact core) && contact then O_dP_EE_d rs
               else core_latch core in
  let sm := smooth (core_smoothed core) (clamp_target rs latch eff) in
  (mkCore sm latch contact, command_of (command_velocity rs sm)).

(** What reaches the controller: a message with its receipt time, or a
    tick with the robot state, the time and the period. *)
Inductive Input :=
  | InMsg (msg : Twist F) (t : Z)
  | InTick (rs : RobotState F) (t period : Z).

Definition input_time (i : Input) : Z :=
  match i with InMsg _ t => t | InTick _ t _ => t end.

(** The commands of the specification on a sequence of inputs. *)
Fixpoint spec_commands (mb : Mailbox) (core : Core) (ins : list Input) : list (array6 F) :=
  match ins with
  | [] => []
  | InMsg msg t :: rest => spec_commands (mb_submit msg t) core rest
  | InTick rs t _ :: rest =>
      let '(core', cmd) := core_tick core (mb_read mb t) rs in
      cmd :: spec_commands mb core' rest
  end.

(** The commands of the code: callbacks and [update]s in sequence. *)
Fixpoint code_commands (hs : list string) (c : Controller F) (ins : list Input)
    : list (array6 F) :=
  match ins with
  | [] => []
  | InMsg msg t :: rest =>
      match target_velocity_callback msg t c with
      | CbStored c' => code_commands hs c' rest
      | CbExit _ => []
      end
  | InTick rs t period :: rest =>
      match update hs rs t period c with
      | UpdOk c' cmd _ => cmd :: code_commands hs c' rest
      | UpdThrow _ => []
      end
  end.

(** Time never goes back: each input's time is at least [t0] and at
    least the previous input's. *)
Fixpoint monotone (t0 : Z) (ins : list Input) : Prop :=
  match ins with
  | [] => True
  | i :: rest => (t0 <= input_time i)%Z /\ monotone (input_time i) rest
  end.

(** The code's object simulates the mailbox and the core: same filter
    state, and the stored target is the mailbox's message, or zero
    already stale at the last tick [tl]. *)
Definition simulates (tl : Z) (c : Controller F) (mb : Mailbox) (core : Core) : Prop :=
  current_velocity c = core_smoothed core /\
  ee_twist_cause_of_contact c = core_latch core /\
  was_in_contact c = core_last_contact core /\
  match mb_time mb with
  | None => target_velocity c = twist_zero
  | Some t =>
      time_since_last_target_velocity c = t /\
      (target_velocity c = mb_twist mb \/
       (target_velocity c = twist_zero /\ is_stale tl t = true))
  end.
End Spec.

Arguments Mailbox F : clear implicits.
Arguments Core F : clear implicits.
Arguments Input F : clear implicits.

Section Simulation.
Context {F : Type} `{Scalar F}.
Variable hs : list string.

Lemma is_stale_mono (t0 t1 t : Z) :
  (t0 <= t1)%Z -> is_stale t0 t = true -> is_stale t1 t = true.
Proof.
  unfold is_stale, staleness_timeout. rewrite !Z.gtb_lt. lia.
Qed.

(** On a tick no earlier than the last one, the code's effective target
    is the mailbox's read. *)
Lemma effective_target_read (tl now : Z) (c : Controller F) mb (core : Core F) :
  simulates tl c mb core -> (tl <= now)%Z -> effective_target now c = mb_read mb now.
Proof.
  intros (_ & _ & _ & Hm) Hle. unfold effective_target, mb_read.
  destruct (mb_time mb) as [t|].
  - destruct Hm as [-> [-> | [-> Hs]]]; [reflexivity|].
    rewrite (is_stale_mono tl now t Hle Hs). reflexivity.
  - rewrite Hm. destruct (is_stale _ _); reflexivity.
Qed.

Lemma update_simulates rs now period (c : Controller F) mb (core : Core F) tl :
  get_handle hs (robot_handle_name (arm_id c)) = true ->
  simulates tl c mb core -> (tl <= now)%Z ->
  exists c' st,
    update hs rs now period c = UpdOk c' (snd (core_tick core (mb_read mb now) rs)) st /\
    simulates now c' mb (fst (core_tick core (mb_read mb now) rs)) /\ arm_id c' = arm_id c.
Proof.
  intros Hh Hsim Hle. rewrite <- (effective_target_read tl now c mb core Hsim Hle).
  pose proof Hsim as (Hc & Hl & Hw & Hm).
  unfold update. rewrite Hh. cbn [negb]. unfold core_tick. rewrite <- Hc, <- Hl, <- Hw.
  eexists _, _. split; [reflexivity|]. split; [|reflexivity].
  unfold simulates; cbn [current_velocity ee_twist_cause_of_contact was_in_contact
                         target_velocity time_since_last_target_velocity core_smoothed
                         core_latch core_last_contact fst].
  repeat split. unfold effective_target. destruct (mb_time mb) as [t|].
  - destruct Hm as [-> Ht]. split; [reflexivity|].
    destruct (is_stale now t) eqn:Es; [right; split; reflexivity|].
    destruct Ht as [Ht | [_ Hs]]; [left; exact Ht|].
    rewrite (is_stale_mono tl now t Hle Hs) in Es. discriminate.
  - rewrite Hm. destruct (is_stale _ _); reflexivity.
Qed.

Lemma callback_simulates msg t (c : Controller F) mb (core : Core F) tl :
  twist_has_nan msg = false -> simulates tl c mb core ->
  target_velocity_callback msg t c =
    CbStored (mkController (arm_id c) (current_velocity c) msg t (was_in_contact c)
                           (ee_twist_cause_of_contact c) (elapsed_time_ c)) /\
  forall tl', simulates tl' (mkController (arm_id c) (current_velocity c) msg t (was_in_contact c)
                                       (ee_twist_cause_of_contact c) (elapsed_time_ c))
                      (mb_submit msg t) core.
Proof.
  intros En (Hc & Hl & Hw & _). unfold target_velocity_callback. rewrite En.
  split; [reflexivity|]. intros tl'. unfold simulates; simpl. repeat split; auto.
Qed.

(** Messages the code accepts: no NaN component. *)
Definition valid_input (i : Input F) : Prop :=
  match i with InMsg msg _ => twist_has_nan msg = false | InTick _ _ _ => True end.

(** C25. Refinement of the specification: as long as time never goes
    back, the controller (callbacks and [update]s on its object, with the
    staleness reset written into the stored target) sends exactly the
    commands of the specification's mailbox and core, whose read never
    changes the mailbox. *)
Theorem code_refines_spec ins (c : Controller F) mb (core : Core F) tl :
  get_handle hs (robot_handle_name (arm_id c)) = true ->
  Forall valid_input ins -> monotone tl ins ->
  simulates tl c mb core ->
  code_commands hs c ins = spec_commands mb core ins.
Proof.
  revert c mb core tl.
  induction ins as [|[msg t | rs t period] rest IH]; intros c mb core tl Hh Hv Hmono Hsim;
    [reflexivity| |]; inversion Hv as [|? ? Hi Hrest]; subst; destruct Hmono as [Hle Hmono];
    cbn [valid_input input_time code_commands spec_commands] in Hi, Hle |- *.
  - destruct (callback_simulates msg t c mb core tl Hi Hsim) as [-> Hsim'].
    apply (IH _ _ _ t); [exact Hh | exact Hrest | exact Hmono | apply Hsim'].
  - destruct (update_simulates rs t period c mb core tl Hh Hsim Hle) as (c' & st & -> & Hsim' & Ea).
    destruct (core_tick core (mb_read mb t) rs) as [core' cmd]. cbn [fst snd] in *.
    f_equal. apply (IH c' mb core' t); [rewrite Ea; exact Hh | exact Hrest | exact Hmono | exact Hsim'].
Qed.
End Simulation.

(** ** At binary64 *)

Definition core_rest : Core float := mkCore twist_zero arr6_zero false.

(** A started object that has received nothing, a message, a tick, and a
    tick in contact after the message has gone stale. *)
Definition ins_run : list (Input float) :=
  [InMsg (twist_lin 1 0 0) 1; InTick (rs_of 0 0 arr6_zero) 2 1;
   InTick (rs_of 1 0 dP_a) 3000000005 1].

Lemma code_refines_spec_witness :
  code_commands panda_handles (ctl_of twist_zero twist_zero false arr6_zero) ins_run =
  spec_commands (mkMailbox twist_zero None) core_rest ins_run.
Proof.
  apply (code_refines_spec panda_handles ins_run _ _ _ 0).
  - vm_compute. reflexivity.
  - repeat constructor; vm_compute; reflexivity.
  - simpl. lia.
  - unfold simulates. repeat split.
Defined.

(** A target of 1 m/s on x stamped at time 0, and two ticks whose clock
    steps back from 3 s to 1 s. *)
Definition ctl_stamped : Controller float := ctl_of twist_zero (twist_lin 1 0 0) false arr6_zero.
Definition mb_stamped : Mailbox float := mkMailbox (twist_lin 1 0 0) (Some 0%Z).
Definition ins_back : list (Input float) :=
  [InTick (rs_of 0 0 arr6_zero) 3000000000 1; InTick (rs_of 0 0 arr6_zero) 1000000000 1].

(** C26. Without a monotone clock the refinement fails: the code's
    staleness reset has erased the target, so after the clock steps back
    the code keeps filtering towards zero, while the specification's
    mailbox, read without mutation, yields the target again. *)
Theorem clock_step_back_diverges :
  simulates 0 ctl_stamped mb_stamped core_rest /\
  Forall valid_input ins_back /\
  PrimFloat.eqb (at0 (nth 1 (code_commands panda_handles ctl_stamped ins_back) arr6_zero))
                (at0 (nth 1 (spec_commands mb_stamped core_rest ins_back) arr6_zero)) = false.
Proof.
  split; [|split].
  - unfold simulates. simpl. repeat split. left. reflexivity.
  - repeat constructor.
  - vm_compute. reflexivity.
Qed.
