(* ===== verification/CommandSink.v ===== *)
(** * The command sink adapter and the status publisher

    [update] and [stopping] end by sending the command to the Cartesian
    velocity handle bound by [init] ([velocity_cartesian_handle_->setCommand],
    lines 163 and 195) and publishing the status message on the topic
    advertised by [init] ([current_velocity_publisher.publish], lines 172
    and 201).  This file adds those two effects to the lifecycle of
    [Lifecycle] as an output trace: each event of the host yields the
    outputs of the method it calls, in the order of the code, and a run
    of events yields the concatenation.  The theorems state what the
    downstream consumers see: the status stream determines the commands
    (a round trip through the status layout), consecutive commands of
    normal operation stay within the per-tick bound (the actuator
    contract of spec section 6), and a restart after [stopping] breaks
    that bound. *)

From Stdlib Require Import ZArith Bool List String Reals Lra PrimFloat.
From S2P Require Import Prelude Msgs Controller FloatModel ControllerProps RealModel RampDown Lifecycle.
Import ListNotations.

(** The topics of [init]: the subscription of line 60 and the
    advertisement of line 62. *)
Definition target_velocity_topic : string := "/franka_control/target_velocity".
Definition current_target_velocity_topic : string := "/franka_control/current_target_velocity".

Section Sink.
Context {F : Type} `{Scalar F}.

(** What leaves the controller: a command written to the velocity
    handle, or a message published on a topic. *)
Inductive Output :=
  | SetCommand (cmd : array6 F)
  | Publish (topic : string) (msg : Twist F).

(** Lines 163 and 172 (and 195, 201): [setCommand(command)] and then
    [publish(vel_msg)] on the status topic. *)
Definition emit (cmd : array6 F) (msg : Twist F) : list Output :=
  [SetCommand cmd; Publish current_target_velocity_topic msg].

(** The outputs of one event in world [w]: [update] emits unless
    [getHandle] threw before line 163, [stopping] always emits; [init],
    [starting] and the callback emit nothing. *)
Definition event_outputs (w : World F) (e : Event F) : list Output :=
  match w_phase w, e with
  | Running, EvUpdate rs now period =>
      match update (w_handles w) rs now period (w_ctl w) with
      | UpdOk _ cmd msg => emit cmd msg
      | UpdThrow _ => []
      end
  | Running, EvStop => let '(_, cmd, msg) := stopping (w_ctl w) in emit cmd msg
  | _, _ => []
  end.

(** A run of events with its outputs; [None] when the host could not
    produce an event in the phase reached. *)
Fixpoint run_outputs (w : World F) (es : list (Event F)) : option (World F * list Output) :=
  match es with
  | [] => Some (w, [])
  | e :: rest =>
      match lstep_fn w e with
      | None => None
      | Some w' =>
          match run_outputs w' rest with
          | Some (w'', outs) => Some (w'', event_outputs w e ++ outs)
          | None => None
          end
      end
  end.

(** The commands the velocity handle receives, in order. *)
Fixpoint sent_commands (outs : list Output) : list (array6 F) :=
  match outs with
  | [] => []
  | SetCommand cmd :: rest => cmd :: sent_commands rest
  | Publish _ _ :: rest => sent_commands rest
  end.

(** A subscriber reading the status layout of lines 165-168 ([linear.x],
    [angular.y], [angular.z]) back into a command. *)
Definition status_decode (msg : Twist F) : array6 F :=
  mkArray6 (x (linear msg)) (y (angular msg)) (z (angular msg)) sc_zero sc_zero sc_zero.

(** Each command is immediately followed by one status message, on the
    status topic, that decodes to it. *)
Fixpoint paired (outs : list Output) : Prop :=
  match outs with
  | [] => True
  | SetCommand cmd :: Publish topic msg :: rest =>
      topic = current_target_velocity_topic /\ status_decode msg = cmd /\ paired rest
  | _ => False
  end.
End Sink.

Arguments Output F : clear implicits.

Section Generic.
Context {F : Type} `{Scalar F}.

Lemma status_decode_msg (v : F * F * F) : status_decode (status_msg v) = command_of v.
Proof. destruct v as [[vx vy] vz]. reflexivity. Qed.

Lemma paired_app (o1 o2 : list (Output F)) : paired o1 -> paired o2 -> paired (o1 ++ o2).
Proof.
  revert o1. fix IH 1. intros [|[cmd|t m] [|[c2|t2 m2] rest]]; simpl; try tauto.
  intros (Et & Ed & Hr) H2. repeat split; auto.
Qed.

Lemma event_outputs_paired (w : World F) e : paired (event_outputs w e).
Proof.
  unfold event_outputs. destruct (w_phase w), e; simpl; auto.
  destruct (update _ _ _ _ _) as [c cmd msg|c] eqn:E; simpl; auto.
  unfold update in E |- *. destruct (negb _); [discriminate|]. injection E as _ <- <-.
  repeat split; apply status_decode_msg.
Qed.

Lemma sent_commands_app (o1 o2 : list (Output F)) :
  sent_commands (o1 ++ o2) = sent_commands o1 ++ sent_commands o2.
Proof. induction o1 as [|[] o1 IH]; simpl; rewrite ?IH; reflexivity. Qed.

(** C27. Round trip through the status stream: in every run of the
    host, each command written to the velocity handle is followed by
    exactly one message on [/franka_control/current_target_velocity]
    from which the command is recovered ([linear.x], [angular.y],
    [angular.z], angular command zero), so the status stream determines
    the sequence of commands. *)
Theorem status_stream_roundtrip (w w' : World F) es outs :
  run_outputs w es = Some (w', outs) -> paired outs.
Proof.
  revert w w' outs; induction es as [|e es IH]; intros w w' outs; simpl.
  - intros E; injection E as _ <-. exact I.
  - destruct (lstep_fn w e) as [w1|]; [|discriminate].
    destruct (run_outputs w1 es) as [[w2 o2]|] eqn:E2; [|discriminate].
    intros E; injection E as _ <-.
    apply paired_app; [apply event_outputs_paired | exact (IH _ _ _ E2)].
Qed.
End Generic.

(** ** The actuator contract *)

Section Contract.
Local Open Scope R_scope.

(** Two commands whose linear components differ by at most [b]. *)
Definition cmd_close (b : R) (a c : array6 R) : Prop :=
  Rabs (at0 c - at0 a) <= b /\ Rabs (at1 c - at1 a) <= b /\ Rabs (at2 c - at2 a) <= b.

(** Every command within [b] of the one before it, the first within [b]
    of [prev]. *)
Fixpoint chain_close (b : R) (prev : array6 R) (cmds : list (array6 R)) : Prop :=
  match cmds with
  | [] => True
  | cmd :: rest => cmd_close b prev cmd /\ chain_close b cmd rest
  end.

(** The command lines 147-163 send for the smoothed velocity of [c]
    without collision. *)
Definition derated_command (c : Controller R) : array6 R :=
  command_of (derate (x (linear (current_velocity c))), derate (y (linear (current_velocity c))),
              derate (z (linear (current_velocity c)))).

(** Events of normal operation: messages within [M] and ticks without
    collision (the collision override of lines 155-159 is the spec's
    declared exception). *)
Definition normal_event (M : R) (e : Event R) : Prop :=
  match e with
  | EvMsg msg _ => vec_bounded M (linear msg)
  | EvUpdate rs _ _ => is_in_collision rs = false
  | _ => False
  end.

(** A running controller whose state handle exists and which keeps the
    bound invariant. *)
Definition running_ok (M : R) (w : World R) : Prop :=
  w_phase w = Running /\ get_handle (w_handles w) (robot_handle_name (arm_id (w_ctl w))) = true /\
  ctl_inv M (w_ctl w).

Lemma twist_has_nan_R (t : Twist R) : twist_has_nan t = false.
Proof.
  unfold twist_has_nan, sc_is_nan; simpl; unfold Reqb.
  repeat (destruct Req_dec_T; [|congruence]). reflexivity.
Qed.

Lemma msg_step_ok M (w : World R) msg now :
  running_ok M w -> vec_bounded M (linear msg) ->
  exists w', lstep_fn w (EvMsg msg now) = Some w' /\ running_ok M w' /\
    event_outputs w (EvMsg msg now) = [] /\ derated_command (w_ctl w') = derated_command (w_ctl w).
Proof.
  destruct w as [ph hs c]; intros (Eph & Hh & _ & Hc) Hm; cbn in Eph; subst ph.
  unfold lstep_fn, target_velocity_callback; cbn [w_phase w_handles w_ctl subscribed].
  rewrite twist_has_nan_R. eexists; split; [reflexivity|].
  split; [unfold running_ok, ctl_inv; cbn; auto | split; reflexivity].
Qed.

Lemma update_step_ok M (w : World R) rs now period :
  0 <= M -> running_ok M w -> is_in_collision rs = false ->
  exists w', lstep_fn w (EvUpdate rs now period) = Some w' /\ running_ok M w' /\
    sent_commands (event_outputs w (EvUpdate rs now period)) = [derated_command (w_ctl w')] /\
    cmd_close (cos_angle * (2 * gain * M)) (derated_command (w_ctl w)) (derated_command (w_ctl w')).
Proof.
  destruct w as [ph hs c]; intros HM (Eph & Hh & Hi) Hcol; cbn [w_phase w_handles w_ctl] in Eph, Hh, Hi; subst ph.
  pose proof (update_current_step M HM hs rs now period c Hi) as Hs.
  pose proof (update_preserves_inv M HM hs rs now period c Hi) as Hi'.
  pose proof (update_result_command hs rs now period c Hh) as Hcmd.
  pose proof (update_arm_id hs rs now period c) as Ea.
  destruct (update hs rs now period c) as [c' cmd msg|c'] eqn:Eu;
    [|unfold update in Eu; rewrite Hh in Eu; discriminate].
  cbn [result_controller result_command] in Hs, Hi', Hcmd, Ea. injection Hcmd as ->.
  exists (mkWorld Running hs c').
  unfold lstep_fn, event_outputs; cbn [w_phase w_handles w_ctl]; rewrite Eu.
  split; [reflexivity|]. split; [unfold running_ok; cbn [w_phase w_handles w_ctl]; rewrite Ea; auto|].
  unfold command_velocity; rewrite Hcol. split; [reflexivity|].
  destruct Hs as (Hx & Hy & Hz). pose proof cos_angle_bounds.
  unfold cmd_close, derated_command, command_of; cbn [at0 at1 at2 w_ctl].
  rewrite !derate_diff. repeat split; apply Rmult_le_compat_l; lra.
Qed.

(** C28. The actuator contract of spec section 6: from a running
    controller that keeps the bound invariant for targets within [M],
    any sequence of messages within [M] and collision-free ticks runs
    without ending the process, and each command written to the velocity
    handle differs from the one before it (the first from the command of
    the current smoothed velocity) by at most
    [cos(pi/4) * 2 * (1 - alpha) * v_max / 2 * M] on each linear axis. *)
Theorem actuator_contract (M : R) (w : World R) es :
  0 <= M -> running_ok M w -> Forall (normal_event M) es ->
  exists w' outs, run_outputs w es = Some (w', outs) /\ running_ok M w' /\
    chain_close (cos_angle * (2 * gain * M)) (derated_command (w_ctl w)) (sent_commands outs).
Proof.
  intros HM; revert w; induction es as [|e es IH]; intros w Hw Hes.
  - exists w, []. split; [reflexivity|]. split; [exact Hw | exact I].
  - inversion Hes as [|? ? He Hrest]; subst. cbn [run_outputs].
    destruct e as [| |rs now period| |msg now]; cbn [normal_event] in He; try contradiction.
    + destruct (update_step_ok M w rs now period HM Hw He) as (w1 & -> & Hw1 & Eo & Hc).
      destruct (IH w1 Hw1 Hrest) as (w2 & outs & -> & Hw2 & Hch).
      exists w2, (event_outputs w (EvUpdate rs now period) ++ outs).
      split; [reflexivity|]. split; [exact Hw2|].
      rewrite sent_commands_app, Eo. split; assumption.
    + destruct (msg_step_ok M w msg now Hw He) as (w1 & -> & Hw1 & Eo & Ed).
      destruct (IH w1 Hw1 Hrest) as (w2 & outs & -> & Hw2 & Hch).
      exists w2, (event_outputs w (EvMsg msg now) ++ outs).
      split; [reflexivity|]. split; [exact Hw2|].
      rewrite Eo. cbn [app]. rewrite <- Ed. exact Hch.
Qed.
End Contract.

Section Restart.
Local Open Scope R_scope.

(** C29. A restart breaks the contract: [stopping], [starting] and one
    tick without contact or collision send the decayed velocity
    [alpha * s] (line 195) and then [cos(pi/4) * (1 - alpha) * v_max / 2 * t]
    for the stored target [t] (lines 86-92 reset the smoothed velocity to
    zero), so the step between these consecutive commands is about [s],
    however large, not within the per-tick bound. *)
Theorem restart_command_jump (w : World R) rs now period :
  w_phase w = Running -> get_handle (w_handles w) (robot_handle_name (arm_id (w_ctl w))) = true ->
  is_in_contact rs = false -> is_in_collision rs = false ->
  let s := linear (current_velocity (w_ctl w)) in
  let t := linear (effective_target now (w_ctl w)) in
  exists w' outs, run_outputs w [EvStop; EvStart; EvUpdate rs now period] = Some (w', outs) /\
    sent_commands outs =
      [mkArray6 (a995 * x s) (a995 * y s) (a995 * z s) 0 0 0;
       mkArray6 (cos_angle * (gain * x t)) (cos_angle * (gain * y t)) (cos_angle * (gain * z t)) 0 0 0].
Proof.
  destruct w as [ph hs c]; cbn [w_phase w_handles w_ctl]; intros -> Hh Hcon Hcol.
  unfold run_outputs, lstep_fn, event_outputs; cbn [w_phase w_handles w_ctl].
  unfold update at 1 2. change (arm_id (starting (stop_state c))) with (arm_id c). rewrite Hh.
  cbn [negb]. eexists _, _. split; [reflexivity|].
  rewrite clamp_target_no_contact by exact Hcon. unfold command_velocity; rewrite Hcol.
  change (let '(_, cmd, msg) := stopping c in emit cmd msg) with (emit (stop_command c) (snd (stopping c))).
  change (effective_target now (starting (stop_state c))) with (effective_target now c).
  change (current_velocity (starting (stop_state c))) with (@twist_zero R _).
  rewrite stop_command_eq, stop_state_current. unfold smooth, command_of, derate.
  cbn [sent_commands emit app linear x y z twist_zero vector3_zero].
  rewrite !decay_axis_R, !smooth_axis_R. unfold a995, sc_zero; cbn [sc_of_Z real_scalar IZR].
  rewrite !Rmult_0_r, !Rplus_0_l. reflexivity.
Qed.
End Restart.

(** ** Witnesses *)

Lemma status_stream_roundtrip_witness :
  exists w' outs, run_outputs w0_float trace_float = Some (w', outs) /\ paired outs.
Proof.
  destruct (run_outputs w0_float trace_float) as [[w' outs]|] eqn:E; [|vm_compute in E; discriminate].
  exists w', outs. split; [reflexivity|]. exact (status_stream_roundtrip w0_float w' trace_float outs E).
Defined.

Section RealWitnesses.
Local Open Scope R_scope.

Lemma rs_free_no_collision : is_in_collision rs_free = false.
Proof.
  unfold is_in_collision; simpl. rewrite (proj2 (Rgtb_false_iff 0 0)) by lra. reflexivity.
Qed.

(** The steady state of a unit target on x, running. *)
Definition w_steady : World R := mkWorld Running panda_handles ctl_steady.

(** The target reversed, then two ticks. *)
Definition es_reversal : list (Event R) :=
  [EvMsg (mkTwist (mkVector3 (-1) 0 0) (mkVector3 0 0 0)) 1; EvUpdate rs_free 1 1; EvUpdate rs_free 2 1].

Lemma actuator_contract_witness :
  exists w' outs, run_outputs w_steady es_reversal = Some (w', outs) /\ running_ok 1 w' /\
    chain_close (cos_angle * (2 * gain * 1)) (derated_command (w_ctl w_steady)) (sent_commands outs).
Proof.
  apply (actuator_contract 1 w_steady es_reversal).
  - lra.
  - split; [reflexivity | split; [reflexivity | exact ctl_steady_inv]].
  - unfold es_reversal. constructor; [|constructor; [|constructor; [|constructor]]].
    + unfold normal_event, vec_bounded; cbn [linear x y z].
      rewrite Rabs_R0, (Rabs_left (-1)) by lra. repeat split; lra.
    + exact rs_free_no_collision.
    + exact rs_free_no_collision.
Defined.

Lemma restart_command_jump_witness :
  (let s := linear (current_velocity (w_ctl w_steady)) in
   let t := linear (effective_target 1 (w_ctl w_steady)) in
   exists w' outs, run_outputs w_steady [EvStop; EvStart; EvUpdate rs_free 1 1] = Some (w', outs) /\
     sent_commands outs =
       [mkArray6 (a995 * x s) (a995 * y s) (a995 * z s) 0 0 0;
        mkArray6 (cos_angle * (gain * x t)) (cos_angle * (gain * y t)) (cos_angle * (gain * z t)) 0 0 0]) /\
  cos_angle * (2 * gain * 1) < Rabs (cos_angle * (gain * 1) - a995 * K).
Proof.
  split.
  - exact (restart_command_jump w_steady rs_free 1 1 eq_refl eq_refl rs_free_no_contact rs_free_no_collision).
  - pose proof cos_angle_bounds. unfold gain, a995, K in *.
    rewrite Rabs_left by nra. nra.
Defined.
End RealWitnesses.
