(* ===== verification/Tearing.v ===== *)
(** * Torn reads of the target Twist

    [Race] takes each statement on the shared fields as one atomic step.
    The three statements on the Twist itself are struct assignments of
    geometry_msgs::Twist, which the compiler performs member by member:
    the store [this->target_velocity = *msg] (line 67), the reset
    [target_velocity = geometry_msgs::Twist()] (line 113) and the copy
    [new_target_velocity = target_velocity] (line 116), each six
    [double] moves in declaration order (linear x, y, z, then angular x,
    y, z).  This file refines the system of [Race] to that granularity:
    one step per member moved.  The NaN test and the stamp stay one step
    each.  An interleaving lets [update] copy a Twist mixing members
    of the old and the new target, one that no one sent, against spec
    section 4.1 ("read never observes a partially-written twist").  For
    every schedule, each member copied is a member of one of the targets
    or the reset's zero. *)

From Stdlib Require Import ZArith Bool List String PrimFloat Lia.
From S2P Require Import Prelude Msgs Controller FloatModel ControllerProps Race.
Import ListNotations.

Section Fields.
Context {F : Type} `{Scalar F}.

(** Member [i] of a Twist, in declaration order. *)
Definition twist_get (t : Twist F) (i : nat) : F :=
  match i with
  | 0 => x (linear t) | 1 => y (linear t) | 2 => z (linear t)
  | 3 => x (angular t) | 4 => y (angular t) | _ => z (angular t)
  end.

(** The Twist [t] with member [i] assigned [v]. *)
Definition twist_set (t : Twist F) (i : nat) (v : F) : Twist F :=
  match i with
  | 0 => mkTwist (mkVector3 v (y (linear t)) (z (linear t))) (angular t)
  | 1 => mkTwist (mkVector3 (x (linear t)) v (z (linear t))) (angular t)
  | 2 => mkTwist (mkVector3 (x (linear t)) (y (linear t)) v) (angular t)
  | 3 => mkTwist (linear t) (mkVector3 v (y (angular t)) (z (angular t)))
  | 4 => mkTwist (linear t) (mkVector3 (x (angular t)) v (z (angular t)))
  | _ => mkTwist (linear t) (mkVector3 (x (angular t)) (y (angular t)) v)
  end.

(** The callback: storing member [k] of the message (line 67), the NaN
    test (lines 69-74), the stamp (line 80), returned, exited. *)
Inductive FCbPc := FCbCopy (k : nat) | FCbAtCheck | FCbAtStamp | FCbReturned | FCbExited.

(** [update]: the stale test (line 112), resetting member [k] (line
    113), copying member [k] into the local [new_target_velocity] whose
    members so far are [acc] (line 116), done with the copied Twist. *)
Inductive FUpPc :=
  | FUpAtStaleTest
  | FUpReset (k : nat)
  | FUpCopy (k : nat) (acc : Twist F)
  | FUpCopied (t : Twist F).

Record FSys := mkFSys { fsys_shared : Shared F; fsys_cb : FCbPc; fsys_up : FUpPc }.

Definition fcb_step (msg : Twist F) (t_msg : Z) (s : FSys) : FSys :=
  let sh := fsys_shared s in
  match fsys_cb s with
  | FCbCopy k =>
      mkFSys (mkShared (twist_set (sh_target sh) k (twist_get msg k)) (sh_stamp sh))
             (if k <? 5 then FCbCopy (S k) else FCbAtCheck)%nat (fsys_up s)
  | FCbAtCheck =>
      if twist_has_nan (sh_target sh) then mkFSys sh FCbExited (fsys_up s)
      else mkFSys sh FCbAtStamp (fsys_up s)
  | FCbAtStamp => mkFSys (mkShared (sh_target sh) t_msg) FCbReturned (fsys_up s)
  | FCbReturned | FCbExited => s
  end.

Definition fup_step (now : Z) (s : FSys) : FSys :=
  let sh := fsys_shared s in
  match fsys_up s with
  | FUpAtStaleTest =>
      mkFSys sh (fsys_cb s)
             (if is_stale now (sh_stamp sh) then FUpReset 0 else FUpCopy 0 twist_zero)
  | FUpReset k =>
      mkFSys (mkShared (twist_set (sh_target sh) k sc_zero) (sh_stamp sh)) (fsys_cb s)
             (if k <? 5 then FUpReset (S k) else FUpCopy 0 twist_zero)%nat
  | FUpCopy k acc =>
      let acc' := twist_set acc k (twist_get (sh_target sh) k) in
      mkFSys sh (fsys_cb s) (if k <? 5 then FUpCopy (S k) acc' else FUpCopied acc')%nat
  | FUpCopied _ => s
  end.

(** A step of the scheduled thread; after [exit] nothing runs. *)
Definition fsys_step (msg : Twist F) (t_msg now : Z) (s : FSys) (th : thread) : FSys :=
  match fsys_cb s with
  | FCbExited => s
  | _ => match th with Tcb => fcb_step msg t_msg s | Tup => fup_step now s end
  end.

Definition frun_sched (msg : Twist F) (t_msg now : Z) (sched : list thread) (s : FSys) : FSys :=
  fold_left (fsys_step msg t_msg now) sched s.

(** Both threads about to start, on the shared fields of [c]. *)
Definition fsys_of (c : Controller F) : FSys :=
  mkFSys (shared_of c) (FCbCopy 0) FUpAtStaleTest.

(** The callback stores the message's [linear.x], then [update] runs. *)
Definition torn_sched : list thread := Tcb :: repeat Tup 7.
End Fields.

Arguments FUpPc F : clear implicits.
Arguments FSys F : clear implicits.

Section Theorems.
Context {F : Type} `{Scalar F}.

Lemma frun_sched_cons (msg : Twist F) t_msg now th sched (s : FSys F) :
  frun_sched msg t_msg now (th :: sched) s = frun_sched msg t_msg now sched (fsys_step msg t_msg now s th).
Proof. reflexivity. Qed.

Lemma frun_sched_nil (msg : Twist F) t_msg now (s : FSys F) : frun_sched msg t_msg now [] s = s.
Proof. reflexivity. Qed.

(** Run a schedule one step at a time, resolving the NaN and stale tests
    with the equations [E1], [E2] after each step, so that no stuck test
    is copied into the following steps. *)
Ltac frun_steps E1 E2 :=
  repeat (rewrite frun_sched_cons; cbn -[frun_sched is_stale twist_has_nan]; rewrite ?E1, ?E2;
          cbn -[frun_sched is_stale twist_has_nan]);
  rewrite frun_sched_nil.

(** C30. Torn read: while the stored target is fresh, the callback can
    store the new message's [linear.x] and [update] can then copy all six
    members, so [update] filters towards a Twist made of the new
    [linear.x] and the old target's other members.  It differs from the
    message when they differ on [linear.y], and from the old target when
    they differ on [linear.x]: a target no one sent. *)
Theorem torn_target_read (msg : Twist F) t_msg now (c : Controller F) :
  is_stale now (time_since_last_target_velocity c) = false ->
  let old := target_velocity c in
  let torn := mkTwist (mkVector3 (x (linear msg)) (y (linear old)) (z (linear old))) (angular old) in
  fsys_up (frun_sched msg t_msg now torn_sched (fsys_of c)) = FUpCopied torn /\
  (y (linear msg) <> y (linear old) -> torn <> msg) /\
  (x (linear msg) <> x (linear old) -> torn <> old).
Proof.
  destruct c as [arm cur [[tx ty tz] [tax tay taz]] stamp was latch el].
  cbn [time_since_last_target_velocity target_velocity]; intros Hs. cbv zeta.
  split; [|split].
  - unfold torn_sched, fsys_of, shared_of; cbn [repeat]. frun_steps Hs Hs. reflexivity.
  - intros Hy E. apply Hy. apply (f_equal (fun t => y (linear t))) in E. cbn in E |- *. congruence.
  - intros Hx E. apply Hx. apply (f_equal (fun t => x (linear t))) in E. cbn in E |- *. congruence.
Qed.
End Theorems.

(** ** Whatever the interleaving *)

Section AnySchedule.
Context {F : Type} `{Scalar F}.
Variables (old msg : Twist F).

(** Member [i] of [t] is member [i] of the old target, of the message,
    or zero. *)
Definition member_ok (t : Twist F) (i : nat) : Prop :=
  twist_get t i = twist_get old i \/ twist_get t i = twist_get msg i \/ twist_get t i = sc_zero.

Definition members_ok (t : Twist F) : Prop := forall i, member_ok t i.

(** The shared target and [update]'s local copy are made of such
    members. *)
Definition fsys_ok (s : FSys F) : Prop :=
  members_ok (sh_target (fsys_shared s)) /\
  match fsys_up s with
  | FUpCopy _ acc => members_ok acc
  | FUpCopied t => members_ok t
  | _ => True
  end.

Lemma twist_get_set (t : Twist F) k v i :
  twist_get (twist_set t k v) i = if Nat.eqb (Nat.min i 5) (Nat.min k 5) then v else twist_get t i.
Proof.
  destruct k as [|[|[|[|[|k]]]]], i as [|[|[|[|[|i]]]]]; cbn; rewrite ?Nat.min_0_r; reflexivity.
Qed.

Lemma members_ok_set (t : Twist F) k v :
  members_ok t -> member_ok (twist_set t k v) k -> members_ok (twist_set t k v).
Proof.
  intros Ht Hk i. unfold member_ok in *. rewrite !twist_get_set in *.
  rewrite Nat.eqb_refl in Hk.
  destruct (Nat.eqb (Nat.min i 5) (Nat.min k 5)) eqn:E; [|apply Ht].
  apply Nat.eqb_eq in E.
  assert (Eg : forall u : Twist F, twist_get u i = twist_get u k).
  { intros u. destruct k as [|[|[|[|[|k]]]]], i as [|[|[|[|[|i]]]]]; cbn in E;
      rewrite ?Nat.min_0_r in E; try discriminate; reflexivity. }
  rewrite !Eg. exact Hk.
Qed.

Lemma members_ok_zero : members_ok twist_zero.
Proof. intros [|[|[|[|[|i]]]]]; right; right; reflexivity. Qed.

Lemma member_ok_set_here (t : Twist F) k v :
  v = twist_get old k \/ v = twist_get msg k \/ v = sc_zero -> member_ok (twist_set t k v) k.
Proof. unfold member_ok. rewrite twist_get_set, Nat.eqb_refl. tauto. Qed.

Lemma fcb_step_ok t_msg (s : FSys F) : fsys_ok s -> fsys_ok (fcb_step msg t_msg s).
Proof.
  destruct s as [[tg st] cb up]; intros [Hs Hu]; cbn [fsys_shared sh_target] in Hs.
  unfold fcb_step; cbn [fsys_cb fsys_shared sh_target sh_stamp].
  destruct cb; try (split; assumption).
  - split; [|exact Hu]. apply members_ok_set; [exact Hs|]. apply member_ok_set_here. tauto.
  - destruct (twist_has_nan tg); split; assumption.
Qed.

Lemma fup_step_ok now (s : FSys F) : fsys_ok s -> fsys_ok (fup_step now s).
Proof.
  destruct s as [[tg st] cb up]; intros [Hs Hu]; cbn [fsys_shared sh_target fsys_up] in Hs, Hu.
  unfold fup_step; cbn [fsys_up fsys_cb fsys_shared sh_target sh_stamp].
  destruct up as [|k|k acc|t]; unfold fsys_ok; cbn [fsys_shared sh_target fsys_up].
  - split; [exact Hs|]. destruct (is_stale now st); [exact I | apply members_ok_zero].
  - split.
    + apply members_ok_set; [exact Hs|]. apply member_ok_set_here. tauto.
    + destruct (k <? 5)%nat; [exact I | apply members_ok_zero].
  - split; [exact Hs|].
    assert (Ha : members_ok (twist_set acc k (twist_get tg k))).
    { apply members_ok_set; [exact Hu|]. apply member_ok_set_here. exact (Hs k). }
    destruct (k <? 5)%nat; exact Ha.
  - split; assumption.
Qed.

Lemma frun_sched_ok t_msg now sched (s : FSys F) :
  fsys_ok s -> fsys_ok (frun_sched msg t_msg now sched s).
Proof.
  revert s; induction sched as [|th sched IH]; intros s Hs; [exact Hs|].
  rewrite frun_sched_cons. apply IH. unfold fsys_step.
  destruct (fsys_cb s); try destruct th; auto using fcb_step_ok, fup_step_ok.
Qed.
End AnySchedule.

Section AnyScheduleThm.
Context {F : Type} `{Scalar F}.

(** C33. Whatever the interleaving and however long the schedule,
    every member of the shared target and of the Twist [update] copies
    is that member of the old target, of the message, or zero (the reset
    of line 113): the race of lines 67 and 116 can mix members (C30) but
    never produce a value that was not sent. *)
Theorem any_schedule_members (msg : Twist F) t_msg now sched (c : Controller F) :
  let s := frun_sched msg t_msg now sched (fsys_of c) in
  members_ok (target_velocity c) msg (sh_target (fsys_shared s)) /\
  forall t, fsys_up s = FUpCopied t -> members_ok (target_velocity c) msg t.
Proof.
  cbv zeta. destruct (frun_sched_ok (target_velocity c) msg t_msg now sched (fsys_of c)) as [Hs Hu].
  - split; [intros i; left; reflexivity | exact I].
  - split; [exact Hs|]. intros t Et. rewrite Et in Hu. exact Hu.
Qed.
End AnyScheduleThm.

(** ** At binary64 *)

(** Moving along [-y] at 1 m/s, the target stamped at time 0. *)
Definition ctl_moving_y : Controller float := ctl_of twist_zero (twist_lin 0 (-1) 0) false arr6_zero.

Lemma float_neq (a b : float) : PrimFloat.eqb a a = true -> PrimFloat.eqb a b = false -> a <> b.
Proof. intros Ha Hb E. subst b. congruence. Qed.

(** A turn to [+x] received 5 ns later: [update] reads the diagonal
    [(1, -1, 0)], which is neither the new target nor the old one. *)
Lemma torn_target_read_witness :
  fsys_up (frun_sched (twist_lin 1 0 0) 5 1000 torn_sched (fsys_of ctl_moving_y)) =
    FUpCopied (twist_lin 1 (-1) 0) /\
  twist_lin 1 (-1) 0 <> twist_lin 1 0 0 /\ twist_lin 1 (-1) 0 <> twist_lin 0 (-1) 0.
Proof.
  destruct (torn_target_read (twist_lin 1 0 0) 5 1000 ctl_moving_y ltac:(vm_compute; reflexivity))
    as (E & Hm & Ho).
  split; [exact E|]. split; [apply Hm | apply Ho]; apply float_neq; vm_compute; reflexivity.
Defined.

(** The torn Twist of the witness above is made of members of the two
    targets. *)
Lemma any_schedule_members_witness :
  members_ok (target_velocity ctl_moving_y) (twist_lin 1 0 0) (twist_lin 1 (-1) 0).
Proof.
  destruct (any_schedule_members (twist_lin 1 0 0) 5 1000 torn_sched ctl_moving_y) as [_ Hu].
  apply Hu. vm_compute. reflexivity.
Defined.
