(* ===== verification/Binary64.v ===== *)
(** * The filter in binary64

    The quantitative theorems of [RealModel] are about exact arithmetic.
    This file evaluates the filter of lines 136-145 in binary64, the
    arithmetic of the C++ code, where each product and sum rounds.  The
    computed gain [(1-alpha) * v_max/2.0] is [0.00037500000000000033],
    not [0.000375].  For a unit target held from rest, the smoothed
    velocity stays within [[0, v_max/2.0]] on every tick.  From tick 6286
    on it is the fixed point [0.074999999999998623] of the rounded
    recurrence, which lies below the real limit [v_max/2].  The proofs
    check the first 6286 ticks by evaluation and then use the fixed
    point. *)

From Stdlib Require Import ZArith NArith Bool PrimFloat Lia.
From S2P Require Import Prelude Msgs Controller FloatModel RampDown.

(** One axis of the filter fed the target [t] on every tick, from [s]:
    the smoothed velocity after [n] ticks (lines 138-139 iterated). *)
Definition filter_response {F} `{Scalar F} (t : F) (n : nat) (s : F) : F :=
  Nat.iter n (fun v => smooth_axis v t) s.

(** [v_max/2.0]: the steady-state scale of the filter. *)
Definition half_v_max {F} `{Scalar F} : F := sc_div v_max (sc_of_Z 2).

(** Once the response reaches a fixed point of the filter it stays. *)
Lemma filter_response_after_fixed {F} `{Scalar F} (t s : F) n :
  smooth_axis (filter_response t n s) t = filter_response t n s ->
  forall k, (n <= k)%nat -> filter_response t k s = filter_response t n s.
Proof. unfold filter_response. apply (iter_after_fixed (fun v => smooth_axis v t)). Qed.

(** The x velocity after [n] calls of [stopping] is [decay_axis]
    iterated [n] times. *)
Lemma iter_stop_x {F} `{Scalar F} n (c : Controller F) :
  x (linear (current_velocity (Nat.iter n stop_state c))) =
    Nat.iter n decay_axis (x (linear (current_velocity c))).
Proof.
  induction n as [|n IH]; [reflexivity|].
  rewrite !Nat.iter_succ, stop_state_current. cbn [linear x]. rewrite IH. reflexivity.
Qed.

Local Open Scope float_scope.

(** The least number of ticks after which the binary64 response to a
    unit target from rest no longer changes. *)
Definition settle_ticks : nat := Z.to_nat 6286.

(** The binary64 fixed point of the unit response. *)
Definition unit_fixed : float := 0x1.33333333332dp-4.

(** Within [[0, v_max/2.0]], in binary64 comparisons. *)
Definition in_unit_range (v : float) : bool := PrimFloat.leb 0 v && PrimFloat.leb v half_v_max.

Lemma unit_response_checked :
  all_iter_ok in_unit_range (fun v => smooth_axis v 1) settle_ticks 0 = true.
Proof. vm_compute. reflexivity. Qed.

Lemma unit_response_settles :
  filter_response 1 settle_ticks 0 = unit_fixed /\ smooth_axis unit_fixed 1 = unit_fixed.
Proof. split; vm_compute; reflexivity. Qed.

(** C31. In binary64 the computed gain of the filter is
    [0.00037500000000000033]; fed a unit target from rest, one axis of the
    smoothed velocity stays within [[0, v_max/2.0]] on every tick, and
    from tick 6286 on it equals the fixed point [0.074999999999998623]
    of the rounded recurrence, strictly below [v_max/2.0]. *)
Theorem float_unit_response_bounded :
  (sc_of_Z 1 - alpha) * v_max / sc_of_Z 2 = 0x1.89374bc6a7fp-12%float /\
  (forall k, in_unit_range (filter_response 1 k 0) = true) /\
  (forall k, (settle_ticks <= k)%nat -> filter_response 1 k 0 = unit_fixed) /\
  PrimFloat.ltb unit_fixed half_v_max = true.
Proof.
  destruct unit_response_settles as [Es Ef].
  assert (Hfix : forall k, (settle_ticks <= k)%nat -> filter_response 1 k 0 = unit_fixed).
  { intros k Hk. rewrite <- Es. apply filter_response_after_fixed; [|exact Hk].
    rewrite Es. exact Ef. }
  split; [vm_compute; reflexivity|]. split; [|split; [exact Hfix | vm_compute; reflexivity]].
  intros k. destruct (Nat.le_gt_cases k settle_ticks) as [Hk | Hk].
  - exact (all_iter_ok_sound _ _ _ _ unit_response_checked k Hk).
  - rewrite Hfix by lia. vm_compute. reflexivity.
Qed.

Lemma float_unit_response_bounded_witness :
  filter_response 1 (Z.to_nat 10000) 0 = unit_fixed /\ in_unit_range (filter_response 1 (Z.to_nat 10000) 0) = true.
Proof.
  destruct float_unit_response_bounded as (_ & Hr & Hf & _).
  split; [apply Hf, Nat.leb_le; vm_compute; reflexivity | apply Hr].
Defined.

(** ** The ramp-down in binary64 *)

(** The number of [stopping] calls after which the decay of the steady
    state stops changing. *)
Definition stall_calls : N := 147057.

(** [99] times the least positive double: the smallest [k * 2^-1074]
    that [0.995 *] rounds back to itself is reached from above at [k = 99]. *)
Definition float_stall : float := 0x0.0000000000063p-1022.

(** The controller at the binary64 steady state of a unit target on x. *)
Definition c_steady_float : Controller float := ctl_of (twist_lin unit_fixed 0 0) twist_zero false arr6_zero.

Lemma stall_checked :
  all_iter_ok (fun s => PrimFloat.ltb (decay_axis s) s) decay_axis (N.to_nat 147056) unit_fixed = true.
Proof. vm_compute. reflexivity. Qed.

Lemma stall_fixed :
  decay_axis (Nat.iter (N.to_nat stall_calls) decay_axis unit_fixed) =
    Nat.iter (N.to_nat stall_calls) decay_axis unit_fixed /\
  Nat.iter (N.to_nat stall_calls) decay_axis unit_fixed = float_stall.
Proof. rewrite <- N2Nat.inj_iter. split; vm_compute; reflexivity. Qed.

(** C32. In binary64 the ramp-down from the steady state of a unit
    target strictly decreases the x velocity on each of the first 147057
    calls of [stopping] and then stays at [99 * 2^-1074] (about
    [4.9e-322]) for ever: [0.995 * v] rounds back to [v] for every
    subnormal [v] below [100 * 2^-1074], so the decay stalls there, after
    about 147 s at 1 kHz, and never reaches zero. *)
Theorem float_ramp_down_stalls :
  (forall n, (n < N.to_nat stall_calls)%nat ->
     PrimFloat.ltb (x (linear (current_velocity (Nat.iter (S n) stop_state c_steady_float))))
                   (x (linear (current_velocity (Nat.iter n stop_state c_steady_float)))) = true) /\
  (forall n, (N.to_nat stall_calls <= n)%nat ->
     x (linear (current_velocity (Nat.iter n stop_state c_steady_float))) = float_stall) /\
  PrimFloat.eqb float_stall (99 * float_denorm_min) = true /\ PrimFloat.ltb 0 float_stall = true.
Proof.
  destruct stall_fixed as [Hf Hs].
  split; [|split; [|split; vm_compute; reflexivity]].
  - intros n Hn. rewrite !iter_stop_x, Nat.iter_succ.
    apply (all_iter_ok_sound _ _ _ _ stall_checked). unfold stall_calls in Hn. lia.
  - intros n Hn. rewrite iter_stop_x. change (x (linear (current_velocity c_steady_float))) with unit_fixed.
    rewrite (iter_after_fixed decay_axis unit_fixed (N.to_nat stall_calls) Hf n Hn). exact Hs.
Qed.

Lemma float_ramp_down_stalls_witness :
  x (linear (current_velocity (Nat.iter (N.to_nat 200000) stop_state c_steady_float))) = float_stall.
Proof.
  destruct float_ramp_down_stalls as (_ & H & _). apply H.
  apply Nat.leb_le. vm_compute. reflexivity.
Defined.
